(** * CollideEffect: the collision-mask render effect of deck.gl

    A shallow embedding of
    [modules/core/src/effects/collide/collide-effect.ts] and the
    properties of its per-frame entry point, parameter export and
    teardown.

    The effect is a class with seven private fields that are mutated
    by [preRender] and [cleanup].  It is embedded as a record
    [CollideEffect] threaded through a small monad that also carries
    the allocator used for object identity, a possible JavaScript
    exception, and the trace of calls made to the collaborators the
    file imports (textures, the program manager, the collide pass, the
    debug overlay). *)

From Stdlib Require Import List ZArith QArith Qround String Bool Arith Lia.
Import ListNotations.

Local Open Scope nat_scope.

(** ** Data model *)

(** Object identity.  JavaScript compares objects with [===] by
    reference; every object the effect compares or owns carries the
    reference it was allocated at. *)
Definition Ref := nat.

(** [const DOWNSCALE = 2]: factor by which the collide FBO is
    downscaled relative to the canvas. *)
Definition DOWNSCALE : Q := 2.

(** A layer extension; only [e.constructor.extensionName] is read. *)
Record Extension := { extensionName : string }.

(** A layer as [preRender] sees it: the three props it destructures
    and the result of [getBounds()], which is [null] ([None]) or a
    reference to the layer's cached bounds pair. *)
Record Layer := {
  layer_ref : Ref;
  visible : bool;
  extensions : list Extension;
  collideEnabled : bool;
  getBounds : option Ref
}.

(** [type RenderInfo = {layers; layerBounds}], with the identity of the
    object literal that built it. *)
Record RenderInfo := {
  ri_ref : Ref;
  layers : list Layer;
  layerBounds : list (option Ref)
}.

(** A [Texture2D] handle. *)
Record Texture2D := { tex_ref : Ref }.

(** The [WebGLRenderingContext] argument: its identity and the size of
    [gl.canvas]. *)
Record GL := {
  gl_ref : Ref;
  canvas_width : Z;
  canvas_height : Z
}.

(** [ProgramManager.getDefaultProgramManager(gl)]: the default manager
    of a context. *)
Record ProgramManager := { pm_gl : Ref }.

Definition getDefaultProgramManager (gl : GL) : ProgramManager :=
  {| pm_gl := gl_ref gl |}.

(** A [CollidePass] object: the context it was built for, its
    [collideMap] texture and the size last given to [fbo.resize]
    ([None] while the framebuffer still has the size its constructor
    chose). *)
Record CollidePass := {
  pass_ref : Ref;
  pass_gl : Ref;
  pass_collideMap : Texture2D;
  fbo_size : option (Q * Q)
}.

Definition resized (p : CollidePass) (w h : Q) : CollidePass :=
  {| pass_ref := pass_ref p;
     pass_gl := pass_gl p;
     pass_collideMap := pass_collideMap p;
     fbo_size := Some (w, h) |}.

Definition isSome {A : Type} (o : option A) : bool :=
  match o with Some _ => true | None => false end.

(** [b !== a[i]] for a bounds entry [b] and an array read [a[i]]: the
    read is [undefined] out of range ([None]), otherwise [null]
    ([Some None]) or a reference. *)
Definition strict_neq (b : option Ref) (entry : option (option Ref)) : bool :=
  match entry with
  | None => true
  | Some None => isSome b
  | Some (Some r') =>
      match b with
      | None => true
      | Some r => negb (r =? r')
      end
  end.

(** [a.some((b, i) => f(b, i))], the index starting at [i]. *)
Fixpoint some_from {A : Type} (f : A -> nat -> bool) (i : nat) (a : list A) : bool :=
  match a with
  | [] => false
  | b :: rest => f b i || some_from f (S i) rest
  end.

Definition some {A : Type} (f : A -> nat -> bool) (a : list A) : bool :=
  some_from f 0 a.

(** The filter of [preRender]:
    [visible && extensions.find(e => e.constructor.extensionName ===
    'CollideExtension') && collideEnabled]. *)
Definition isCollideExtension (e : Extension) : bool :=
  String.eqb (extensionName e) "CollideExtension".

Definition isCollideLayer (l : Layer) : bool :=
  visible l && isSome (find isCollideExtension (extensions l)) && collideEnabled l.

(** How a call ends: normally, or by the [TypeError] JavaScript raises
    on a member access through [undefined]. *)
Inductive Completion (A : Type) :=
| Normal (a : A)
| TypeError.
Arguments Normal {A} a.
Arguments TypeError {A}.

(** The collaborators the file only imports.  [Viewport] is an external
    class; [equals lv v] is [lv.equals(v)], where [v] is [viewports[0]]
    and so may be [undefined].  [layerFilter], [onViewportActive] and
    [views] are passed through untouched.  [collide] is the shader
    module imported from [shaderlib/collide/collide], tested for
    truthiness before it is registered. *)
Class Host := {
  Viewport : Type;
  equals : Viewport -> option Viewport -> bool;
  LayerFilter : Type;
  ViewportCallback : Type;
  Views : Type;
  ShaderModule : Type;
  collide : option ShaderModule
}.

Section Effect.

Context {host : Host}.

Record PreRenderOptions := {
  opt_layers : list Layer;
  layerFilter : LayerFilter;
  viewports : list Viewport;
  onViewportActive : ViewportCallback;
  views : Views
}.

(** The options object given to [collidePass.render].  [rc_ratio_gl] is
    the context whose [cssToDeviceRatio], divided by [DOWNSCALE], is
    passed as [moduleParameters.devicePixelRatio]. *)
Record RenderCall := {
  rc_layers : list Layer;
  rc_layerFilter : LayerFilter;
  rc_viewports : list Viewport;
  rc_onViewportActive : ViewportCallback;
  rc_views : Views;
  rc_ratio_gl : Ref
}.

(** Calls made on the collaborators, in program order. *)
Inductive Event :=
| NewTexture2D (t : Texture2D) (gl : Ref) (width height : Z)
| AddDefaultModule (pm : ProgramManager) (module : ShaderModule)
| NewCollidePass (p : Ref) (gl : Ref) (id : string)
| FboResize (p : Ref) (width height : Q)
| PassRender (p : Ref) (call : RenderCall)
| DebugOverlay (collideMap : Texture2D)
| TextureDelete (t : Texture2D)
| RemoveDefaultModule (pm : ProgramManager) (module : option ShaderModule)
| PassDelete (p : Ref).

(** The private fields of the class.  A field that is [undefined] or
    [null] is [None]: the code reads these fields through truthiness
    tests only. *)
Record CollideEffect := {
  dummyCollideMap : option Texture2D;
  programManager : option ProgramManager;
  oldRenderInfo : option RenderInfo;
  haveCollideLayers : bool;
  collidePass : option CollidePass;
  collideMap : option Texture2D;
  lastViewport : option Viewport
}.

(** The field initialisers of the class. *)
Definition initial : CollideEffect :=
  {| dummyCollideMap := None;
     programManager := None;
     oldRenderInfo := None;
     haveCollideLayers := false;
     collidePass := None;
     collideMap := None;
     lastViewport := None |}.

Definition with_dummyCollideMap (v : option Texture2D) (e : CollideEffect) :=
  {| dummyCollideMap := v;
     programManager := programManager e;
     oldRenderInfo := oldRenderInfo e;
     haveCollideLayers := haveCollideLayers e;
     collidePass := collidePass e;
     collideMap := collideMap e;
     lastViewport := lastViewport e |}.

Definition with_programManager (v : option ProgramManager) (e : CollideEffect) :=
  {| dummyCollideMap := dummyCollideMap e;
     programManager := v;
     oldRenderInfo := oldRenderInfo e;
     haveCollideLayers := haveCollideLayers e;
     collidePass := collidePass e;
     collideMap := collideMap e;
     lastViewport := lastViewport e |}.

Definition with_oldRenderInfo (v : option RenderInfo) (e : CollideEffect) :=
  {| dummyCollideMap := dummyCollideMap e;
     programManager := programManager e;
     oldRenderInfo := v;
     haveCollideLayers := haveCollideLayers e;
     collidePass := collidePass e;
     collideMap := collideMap e;
     lastViewport := lastViewport e |}.

Definition with_haveCollideLayers (v : bool) (e : CollideEffect) :=
  {| dummyCollideMap := dummyCollideMap e;
     programManager := programManager e;
     oldRenderInfo := oldRenderInfo e;
     haveCollideLayers := v;
     collidePass := collidePass e;
     collideMap := collideMap e;
     lastViewport := lastViewport e |}.

Definition with_collidePass (v : option CollidePass) (e : CollideEffect) :=
  {| dummyCollideMap := dummyCollideMap e;
     programManager := programManager e;
     oldRenderInfo := oldRenderInfo e;
     haveCollideLayers := haveCollideLayers e;
     collidePass := v;
     collideMap := collideMap e;
     lastViewport := lastViewport e |}.

Definition with_collideMap (v : option Texture2D) (e : CollideEffect) :=
  {| dummyCollideMap := dummyCollideMap e;
     programManager := programManager e;
     oldRenderInfo := oldRenderInfo e;
     haveCollideLayers := haveCollideLayers e;
     collidePass := collidePass e;
     collideMap := v;
     lastViewport := lastViewport e |}.

Definition with_lastViewport (v : option Viewport) (e : CollideEffect) :=
  {| dummyCollideMap := dummyCollideMap e;
     programManager := programManager e;
     oldRenderInfo := oldRenderInfo e;
     haveCollideLayers := haveCollideLayers e;
     collidePass := collidePass e;
     collideMap := collideMap e;
     lastViewport := v |}.

(** ** The effect monad *)

(** The effect object together with the allocator of references. *)
Record Machine := {
  this : CollideEffect;
  next_ref : Ref
}.

(** A computation: from a machine to its completion, the machine it
    leaves (mutations made before an exception stay), and the calls it
    made. *)
Definition M (A : Type) : Type := Machine -> Completion A * Machine * list Event.

Definition ret {A : Type} (a : A) : M A := fun m => (Normal a, m, []).

Definition bind {A B : Type} (c : M A) (k : A -> M B) : M B :=
  fun m =>
    match c m with
    | (Normal a, m1, t1) =>
        match k a m1 with
        | (r, m2, t2) => (r, m2, t1 ++ t2)
        end
    | (TypeError, m1, t1) => (TypeError, m1, t1)
    end.

Notation "x <- c1 ;; c2" := (bind c1 (fun x => c2))
  (at level 61, c1 at next level, right associativity).
Notation "c1 ;; c2" := (bind c1 (fun _ => c2))
  (at level 61, right associativity).

Definition throw {A : Type} : M A := fun m => (TypeError, m, []).

Definition get_this : M CollideEffect := fun m => (Normal (this m), m, []).

Definition assign (f : CollideEffect -> CollideEffect) : M unit :=
  fun m => (Normal tt, {| this := f (this m); next_ref := next_ref m |}, []).

Definition fresh : M Ref :=
  fun m => (Normal (next_ref m), {| this := this m; next_ref := S (next_ref m) |}, []).

Definition emit (e : Event) : M unit := fun m => (Normal tt, m, [e]).

Definition when (b : bool) (c : M unit) : M unit := if b then c else ret tt.

Definition completion_of {A : Type} (c : M A) (m : Machine) : Completion A := fst (fst (c m)).
Definition state_after {A : Type} (c : M A) (m : Machine) : Machine := snd (fst (c m)).
Definition events_of {A : Type} (c : M A) (m : Machine) : list Event := snd (c m).

(** ** Collaborator calls *)

(** [new Texture2D(gl, {width, height})]. *)
Definition new_Texture2D (gl : GL) (width height : Z) : M Texture2D :=
  r <- fresh ;;
  let t := {| tex_ref := r |} in
  emit (NewTexture2D t (gl_ref gl) width height) ;;
  ret t.

(** [new CollidePass(gl, {id})]: a pass object owning a new
    [collideMap] texture. *)
Definition new_CollidePass (gl : GL) (id : string) : M CollidePass :=
  r <- fresh ;;
  t <- fresh ;;
  emit (NewCollidePass r (gl_ref gl) id) ;;
  ret {| pass_ref := r;
         pass_gl := gl_ref gl;
         pass_collideMap := {| tex_ref := t |};
         fbo_size := None |}.

(** ** The methods of the class *)

(** [_debug()]: reads [this.collideMap] back and draws it on the
    [fbo-canvas] element.  The drawing itself is one call on the trace;
    [this.collideMap.height] raises when the field is [undefined].
    What the body may raise beyond that (the read-back or
    [createImageData] on a mask without pixels) is not told apart here:
    the call is the last statement of [preRender], so the fields and
    the trace of a frame do not depend on it, and nothing below
    concludes that a frame with collision layers returns. *)
Definition _debug : M unit :=
  e <- get_this ;;
  match collideMap e with
  | None => throw
  | Some t => emit (DebugOverlay t)
  end.

(** The local constant [renderInfoUpdated] of [_render]: the render
    info is new, or the sublayers have changed, or some cached bounds
    changed shallowly. *)
Definition renderInfoUpdated (renderInfo oldRenderInfo : RenderInfo) : bool :=
  (ri_ref renderInfo =? ri_ref oldRenderInfo)
  || negb (List.length (layers oldRenderInfo) =? List.length (layers renderInfo))
  || some (fun b i => strict_neq b (nth_error (layerBounds oldRenderInfo) i))
          (layerBounds renderInfo).

(** The local constant [viewportChanged] of [preRender]:
    [!this.lastViewport || !this.lastViewport.equals(viewport)]. *)
Definition viewportChanged (lastViewport viewport : option Viewport) : bool :=
  match lastViewport with
  | None => true
  | Some lv => negb (equals lv viewport)
  end.

(** [_render(renderInfo, {layerFilter, onViewportActive, views,
    viewport, viewportChanged})]. *)
Definition _render (renderInfo : RenderInfo)
    (layerFilter : LayerFilter) (onViewportActive : ViewportCallback) (views : Views)
    (viewport : option Viewport) (viewportChanged : bool) : M unit :=
  e <- get_this ;;
  match oldRenderInfo e with
  | None => ret tt
  | Some old =>
      let renderInfoUpdated := renderInfoUpdated renderInfo old in
      assign (with_oldRenderInfo (Some renderInfo)) ;;
      if renderInfoUpdated || viewportChanged then
        assign (with_lastViewport viewport) ;;
        e' <- get_this ;;
        match collidePass e' with
        | None => throw
        | Some p =>
            emit (PassRender (pass_ref p)
                    {| rc_layers := layers renderInfo;
                       rc_layerFilter := layerFilter;
                       rc_viewports := match viewport with Some v => [v] | None => [] end;
                       rc_onViewportActive := onViewportActive;
                       rc_views := views;
                       rc_ratio_gl := pass_gl p |})
        end
      else ret tt
  end.

(** [preRender(gl, {layers, layerFilter, viewports, onViewportActive,
    views})]. *)
Definition preRender (gl : GL) (o : PreRenderOptions) : M unit :=
  e0 <- get_this ;;
  when (negb (isSome (dummyCollideMap e0)))
    (t <- new_Texture2D gl 1 1 ;;
     assign (with_dummyCollideMap (Some t))) ;;
  let collideLayers := filter isCollideLayer (opt_layers o) in
  if List.length collideLayers =? 0 then
    assign (with_haveCollideLayers false) ;;
    assign (with_oldRenderInfo None)
  else
    assign (with_haveCollideLayers true) ;;
    e1 <- get_this ;;
    when (negb (isSome (programManager e1)))
      (let pm := getDefaultProgramManager gl in
       assign (with_programManager (Some pm)) ;;
       match collide with
       | Some module => emit (AddDefaultModule pm module)
       | None => ret tt
       end) ;;
    e2 <- get_this ;;
    when (negb (isSome (collidePass e2)))
      (p <- new_CollidePass gl "default-collide" ;;
       assign (with_collidePass (Some p)) ;;
       assign (with_collideMap (Some (pass_collideMap p)))) ;;
    r <- fresh ;;
    let renderInfo :=
      {| ri_ref := r;
         layerBounds := map getBounds collideLayers;
         layers := collideLayers |} in
    e3 <- get_this ;;
    when (negb (isSome (oldRenderInfo e3)))
      (assign (with_oldRenderInfo (Some renderInfo))) ;;
    let viewport := nth_error (viewports o) 0 in
    e4 <- get_this ;;
    let viewportChanged := viewportChanged (lastViewport e4) viewport in
    match collidePass e4 with
    | None => throw
    | Some p =>
        let width := (inject_Z (canvas_width gl) / DOWNSCALE)%Q in
        let height := (inject_Z (canvas_height gl) / DOWNSCALE)%Q in
        emit (FboResize (pass_ref p) width height) ;;
        assign (with_collidePass (Some (resized p width height)))
    end ;;
    _render renderInfo (layerFilter o) (onViewportActive o) (views o)
            viewport viewportChanged ;;
    _debug.

(** [getModuleParameters()]. *)
Record ModuleParameters := {
  param_collideMap : option Texture2D;
  param_haveCollideLayers : bool
}.

Definition getModuleParameters (e : CollideEffect) : ModuleParameters :=
  {| param_collideMap :=
       if haveCollideLayers e then collideMap e else dummyCollideMap e;
     param_haveCollideLayers := haveCollideLayers e |}.

(** [cleanup()]. *)
Definition cleanup : M unit :=
  e0 <- get_this ;;
  match dummyCollideMap e0 with
  | Some t =>
      emit (TextureDelete t) ;;
      assign (with_dummyCollideMap None)
  | None => ret tt
  end ;;
  e1 <- get_this ;;
  (if haveCollideLayers e1 then
     match programManager e1 with
     | Some pm =>
         emit (RemoveDefaultModule pm collide) ;;
         assign (with_programManager None)
     | None => ret tt
     end
   else ret tt) ;;
  e2 <- get_this ;;
  match collidePass e2 with
  | Some p =>
      emit (PassDelete (pass_ref p)) ;;
      assign (with_collidePass None) ;;
      assign (with_collideMap None)
  | None => ret tt
  end ;;
  assign (with_lastViewport None) ;;
  assign (with_haveCollideLayers false) ;;
  assign (with_oldRenderInfo None).

(** ** Observations on a frame *)

Definition is_render (e : Event) : bool :=
  match e with PassRender _ _ => true | _ => false end.

Definition is_resize (e : Event) : bool :=
  match e with FboResize _ _ _ => true | _ => false end.

Definition is_debug (e : Event) : bool :=
  match e with DebugOverlay _ => true | _ => false end.

(** Number of [collidePass.render] calls in a trace. *)
Definition count_render (t : list Event) : nat := List.length (filter is_render t).

Definition count_resize (t : list Event) : nat := List.length (filter is_resize t).

Definition count_debug (t : list Event) : nat := List.length (filter is_debug t).

(** The layers handed to the render pass in a trace. *)
Definition rendered_layers (t : list Event) : list Layer :=
  flat_map (fun e => match e with PassRender _ c => rc_layers c | _ => [] end) t.

(** The collision-layer set of a frame. *)
Definition collideLayersOf (o : PreRenderOptions) : list Layer :=
  filter isCollideLayer (opt_layers o).

(** The reference the frame's [renderInfo] literal is allocated at:
    after the dummy texture and after the pass and its texture, when
    these are created on the frame. *)
Definition renderInfo_ref (m : Machine) : Ref :=
  let n := if isSome (dummyCollideMap (this m)) then next_ref m else S (next_ref m) in
  if isSome (collidePass (this m)) then n else S (S n).

(** The [renderInfo] object of a frame with collision layers. *)
Definition frame_renderInfo (m : Machine) (o : PreRenderOptions) : RenderInfo :=
  {| ri_ref := renderInfo_ref m;
     layers := collideLayersOf o;
     layerBounds := map getBounds (collideLayersOf o) |}.

(** The render decision of a frame with collision layers, on the state
    the frame starts in. *)
Definition frame_renders (m : Machine) (o : PreRenderOptions) : bool :=
  match oldRenderInfo (this m) with
  | None => true
  | Some old => renderInfoUpdated (frame_renderInfo m o) old
  end
  || viewportChanged (lastViewport (this m)) (nth_error (viewports o) 0).

(** ** Reachable states *)

(** What holds of the fields between calls: [collideMap] aliases the
    pass's texture; whenever collision layers are flagged, the dummy
    and the pass exist; a render info is cached exactly while
    collision layers are flagged, and it was allocated in the past. *)
Definition wf (m : Machine) : Prop :=
  collideMap (this m) = option_map pass_collideMap (collidePass (this m))
  /\ (haveCollideLayers (this m) = true ->
      isSome (dummyCollideMap (this m)) = true
      /\ isSome (collidePass (this m)) = true)
  /\ isSome (oldRenderInfo (this m)) = haveCollideLayers (this m)
  /\ (forall ri, oldRenderInfo (this m) = Some ri -> ri_ref ri < next_ref m).

(** The states of an effect object: constructed, then driven by
    [preRender] and [cleanup] ([getModuleParameters] only reads). *)
Inductive reachable : Machine -> Prop :=
| reachable_new (n : Ref) : reachable {| this := initial; next_ref := n |}
| reachable_preRender (gl : GL) (o : PreRenderOptions) (m : Machine) :
    reachable m -> reachable (state_after (preRender gl o) m)
| reachable_cleanup (m : Machine) :
    reachable m -> reachable (state_after cleanup m).

(** What C2 asks of two successive identical calls: the first invokes
    the render pass exactly once, the second not at all. *)
Definition renders_once_then_never (gl : GL) (o : PreRenderOptions) (m : Machine) : Prop :=
  count_render (events_of (preRender gl o) m) = 1
  /\ count_render (events_of (preRender gl o) (state_after (preRender gl o) m)) = 0.

(** ** Runs of the effect *)

(** A call the host makes on the effect. *)
Inductive Call :=
| PreRender (gl : GL) (o : PreRenderOptions)
| Cleanup.

Definition call (c : Call) : M unit :=
  match c with
  | PreRender gl o => preRender gl o
  | Cleanup => cleanup
  end.


Definition is_new_texture (e : Event) : bool :=
  match e with NewTexture2D _ _ _ _ => true | _ => false end.

Definition is_texture_delete (e : Event) : bool :=
  match e with TextureDelete _ => true | _ => false end.

Definition is_new_pass (e : Event) : bool :=
  match e with NewCollidePass _ _ _ => true | _ => false end.

Definition is_pass_delete (e : Event) : bool :=
  match e with PassDelete _ => true | _ => false end.

Definition is_add_module (e : Event) : bool :=
  match e with AddDefaultModule _ _ => true | _ => false end.

Definition is_remove_module (e : Event) : bool :=
  match e with RemoveDefaultModule _ _ => true | _ => false end.

(** Number of calls of one kind in a trace. *)
Definition count (kind : Event -> bool) (t : list Event) : nat :=
  List.length (filter kind t).

(** 1 for a field that holds an object, 0 for an empty one. *)
Definition live {A : Type} (field : option A) : nat :=
  if isSome field then 1 else 0.

(** The resources a frame with collision layers creates, in program
    order: the dummy texture, the shader-module registration and the
    collide pass, each only when the effect lacks it. *)
Definition provisioning (gl : GL) (m : Machine) : list Event :=
  match dummyCollideMap (this m) with
  | Some _ => []
  | None => [NewTexture2D {| tex_ref := next_ref m |} (gl_ref gl) 1 1]
  end
  ++ match programManager (this m), collide with
     | None, Some module => [AddDefaultModule (getDefaultProgramManager gl) module]
     | _, _ => []
     end
  ++ match collidePass (this m) with
     | Some _ => []
     | None =>
         [NewCollidePass
            (if isSome (dummyCollideMap (this m)) then next_ref m else S (next_ref m))
            (gl_ref gl) "default-collide"]
     end.

End Effect.

(** ** The debug overlay *)

(** The body of [_debug], which the effect above records as one call:
    the read-back of the mask, the [fbo-canvas] element and the image
    drawn on it. *)
Module Overlay.

(** What [_debug] reads of [this.collideMap]: its [width] and
    [height].  They are numbers, not always whole: [preRender] resizes
    the framebuffer to half the canvas size, unrounded. *)
Record Mask := {
  mask_width : Q;
  mask_height : Q
}.

(** The canvas element: the properties [_debug] sets, its size, and
    the image last put on its 2-D context.  [style_width] is the number
    of pixels of [style.width], unset on an element whose width was
    never styled. *)
Record Canvas := {
  canvas_id : string;
  style_zIndex : string;
  style_position : string;
  style_top : string;
  style_right : string;
  style_border : string;
  style_transform : string;
  style_width : option Q;
  width : nat;
  height : nat;
  image : list Z
}.

(** The document, as far as [_debug] looks: the element
    [document.getElementById('fbo-canvas')] finds, if any. *)
Definition Document := option Canvas.

(** The exceptions of the body: what [readPixelsToArray] raises when
    it cannot read the mask back, the [TypeError] of a member access on
    an undefined [collideMap], and the [IndexSizeError] that
    [createImageData] raises for a width or height of zero. *)
Inductive Raised :=
| RaisedByReadPixels
| RaisedTypeError
| RaisedIndexSizeError.

(** [canvas.width = v]: the number is converted to an unsigned long,
    which drops the fraction of a size (sizes are not negative). *)
Definition to_unsigned_long (v : Q) : nat := Z.to_nat (Qfloor v).

(** [canvas.width !== v], a whole number against a number. *)
Definition differs (n : nat) (v : Q) : bool :=
  negb (Qeq_bool (inject_Z (Z.of_nat n)) v).

(** [const minimap = true] and, inside the minimap branch,
    [const zoom = 8]. *)
Definition minimap : bool := true.
Definition zoom : nat := 8.

(** The conversion a [Uint8ClampedArray] applies to an integer. *)
Definition clamp (v : Z) : Z := Z.max 0 (Z.min 255 v).

(** [a[i] = v] on a typed array: an index past the end is ignored. *)
Fixpoint write (a : list Z) (i : nat) (v : Z) : list Z :=
  match a, i with
  | [], _ => []
  | _ :: rest, 0 => v :: rest
  | x :: rest, S i' => x :: write rest i' v
  end.

(** [data[i] = color[j]]: a read past the end of [color] is
    [undefined], which is stored as 0. *)
Definition store (data : list Z) (i : nat) (read : option Z) : list Z :=
  write data i match read with Some v => clamp v | None => 0%Z end.

(** The body of the minimap loops, for one destination pixel. *)
Definition minimap_pixel (color : list Z) (width : nat) (data : list Z) (x y : nat)
  : list Z :=
  let d := 4 * (x + y * width) in
  let s := 4 * (x / zoom + y / zoom * width) in
  let data := store data (d + 0) (nth_error color (s + 0)) in
  let data := store data (d + 1) (nth_error color (s + 1)) in
  let data := store data (d + 2) (nth_error color (s + 2)) in
  store data (d + 3) (nth_error color (s + 3)).

(** [for (let y = 0; y < height; y++) for (let x = 0; x < width; x++)]. *)
Definition draw_minimap (color : list Z) (width height : nat) (data : list Z) : list Z :=
  fold_left
    (fun data y =>
       fold_left (fun data x => minimap_pixel color width data x y) (seq 0 width) data)
    (seq 0 height) data.

(** The body of the full-map loop, for one source pixel. *)
Definition full_map_pixel (color : list Z) (offset : nat) (data : list Z) (i : nat)
  : list Z :=
  let data := store data (offset + i + 0) (nth_error color (i + 0)) in
  let data := store data (offset + i + 1) (nth_error color (i + 1)) in
  let data := store data (offset + i + 2) (nth_error color (i + 2)) in
  store data (offset + i + 3) (nth_error color (i + 3)).

(** [for (let i = 0; i < color.length; i += 4)]. *)
Definition draw_full_map (color : list Z) (offset : nat) (data : list Z) : list Z :=
  fold_left (full_map_pixel color offset)
            (map (fun n => 4 * n) (seq 0 ((List.length color + 3) / 4)))
            data.

(** The image [_debug] composes for a canvas of the given size:
    [createImageData] gives transparent black, then the minimap and the
    full map are drawn over it. *)
Definition compose (color : list Z) (width height : nat) : list Z :=
  let data := repeat 0%Z (4 * width * height) in
  let data := if minimap then draw_minimap color width height data else data in
  let offset := if minimap then List.length color else 0 in
  draw_full_map color offset data.

(** The element made when the document has no [fbo-canvas]: the new
    canvas element [blank], with its id and style set. *)
Definition created (blank : Canvas) : Canvas :=
  {| canvas_id := "fbo-canvas";
     style_zIndex := "100";
     style_position := "absolute";
     style_top := "0";
     style_right := "0";
     style_border := "blue 1px solid";
     style_transform := "scaleY(-1)";
     style_width := style_width blank;
     width := width blank;
     height := height blank;
     image := image blank |}.

(** The three assignments made when the canvas has not the size of the
    overlay: [canvas.width = w], [canvas.height = h] and the styled
    width, [0.125 * DOWNSCALE * canvas.width] of the width just set. *)
Definition resized_to (w h : Q) (c : Canvas) : Canvas :=
  {| canvas_id := canvas_id c;
     style_zIndex := style_zIndex c;
     style_position := style_position c;
     style_top := style_top c;
     style_right := style_right c;
     style_border := style_border c;
     style_transform := style_transform c;
     style_width :=
       Some ((1 # 8) * DOWNSCALE * inject_Z (Z.of_nat (to_unsigned_long w)))%Q;
     width := to_unsigned_long w;
     height := to_unsigned_long h;
     image := image c |}.

(** [ctx.putImageData(imageData, 0, 0)]. *)
Definition putImageData (data : list Z) (c : Canvas) : Canvas :=
  {| canvas_id := canvas_id c;
     style_zIndex := style_zIndex c;
     style_position := style_position c;
     style_top := style_top c;
     style_right := style_right c;
     style_border := style_border c;
     style_transform := style_transform c;
     style_width := style_width c;
     width := width c;
     height := height c;
     image := data |}.

(** [_debug()], on the mask, the document and [readback], the outcome
    of [readPixelsToArray(this.collideMap)]: the array [color], or
    nothing when the call raises.  [blank] is the element
    [document.createElement('canvas')] returns.  The result is the
    document the call leaves and the exception it raises, if any. *)
Definition _debug (blank : Canvas) (collideMap : option Mask)
    (readback : option (list Z)) (document : Document)
  : Document * option Raised :=
  match readback with
  | None => (document, Some RaisedByReadPixels)
  | Some color =>
      match collideMap with
      | None => (document, Some RaisedTypeError)
      | Some mask =>
          let canvasHeight := ((if minimap then 2 else 1) * mask_height mask)%Q in
          let canvas :=
            match document with
            | Some c => c
            | None => created blank
            end in
          let canvas :=
            if differs (width canvas) (mask_width mask)
               || differs (height canvas) canvasHeight
            then resized_to (mask_width mask) canvasHeight canvas
            else canvas in
          if (width canvas =? 0) || (height canvas =? 0) then
            (Some canvas, Some RaisedIndexSizeError)
          else
            (Some (putImageData (compose color (width canvas) (height canvas)) canvas),
             None)
      end
  end.

(** *** The loops as lists of stores *)

(** The value a store leaves for a read. *)
Definition stored (read : option Z) : Z :=
  match read with Some v => clamp v | None => 0%Z end.

(** One store, as a step of a fold. *)
Definition write_pair (a : list Z) (iv : nat * Z) : list Z := write a (fst iv) (snd iv).

(** The four stores of a minimap pixel, as index and value. *)
Definition pixel_writes (color : list Z) (w x y : nat) : list (nat * Z) :=
  let d := 4 * (x + y * w) in
  let s := 4 * (x / zoom + y / zoom * w) in
  [(d + 0, stored (nth_error color (s + 0)));
   (d + 1, stored (nth_error color (s + 1)));
   (d + 2, stored (nth_error color (s + 2)));
   (d + 3, stored (nth_error color (s + 3)))].

(** The stores of one row of the minimap, and of all its rows, in
    program order. *)
Definition row_writes (color : list Z) (w y : nat) : list (nat * Z) :=
  flat_map (fun x => pixel_writes color w x y) (seq 0 w).

Definition minimap_writes (color : list Z) (w h : nat) : list (nat * Z) :=
  flat_map (row_writes color w) (seq 0 h).

(** The four stores of a full-map pixel, as index and value. *)
Definition full_map_writes (color : list Z) (offset : nat) (steps : list nat)
  : list (nat * Z) :=
  flat_map (fun i =>
              [(offset + i + 0, stored (nth_error color (i + 0)));
               (offset + i + 1, stored (nth_error color (i + 1)));
               (offset + i + 2, stored (nth_error color (i + 2)));
               (offset + i + 3, stored (nth_error color (i + 3)))])
           steps.

(** A number a [Uint8ClampedArray] holds. *)
Definition is_byte (v : Z) : Prop := (0 <= v <= 255)%Z.

(** An image: as long as its size asks, and made of bytes. *)
Definition is_image (n : nat) (data : list Z) : Prop :=
  List.length data = n /\ Forall is_byte data.

(** A whole number of pixels, as the number [width] or [height]
    holds it. *)
Definition whole (n : nat) (v : Q) : Prop := (v == inject_Z (Z.of_nat n))%Q.

End Overlay.

(** ** Scenarios *)

(** Modelled from the spec: the [Viewport] class is not part of this
    file; its equality "is by value (position, zoom, projection
    parameters), not identity".  The scenarios use a viewport made of
    its size, position and zoom, compared field by field; comparing
    with [undefined] gives false. *)
Record MapViewport := {
  vp_width : Z;
  vp_height : Z;
  vp_longitude : Z;
  vp_latitude : Z;
  vp_zoom : Z
}.

Definition equals_by_value (lv : MapViewport) (v : option MapViewport) : bool :=
  match v with
  | None => false
  | Some v =>
      (vp_width lv =? vp_width v)%Z
      && (vp_height lv =? vp_height v)%Z
      && (vp_longitude lv =? vp_longitude v)%Z
      && (vp_latitude lv =? vp_latitude v)%Z
      && (vp_zoom lv =? vp_zoom v)%Z
  end.

(** The host of the scenarios. *)
Definition map_host : Host :=
  {| Viewport := MapViewport;
     equals := equals_by_value;
     LayerFilter := unit;
     ViewportCallback := unit;
     Views := unit;
     ShaderModule := string;
     collide := Some "collide"%string |}.

Module Scenario.

Definition Options : Type := @PreRenderOptions map_host.
Definition State : Type := @Machine map_host.

Definition canvas_800x600 : GL :=
  {| gl_ref := 0; canvas_width := 800; canvas_height := 600 |}.

Definition canvas_1600x1200 : GL :=
  {| gl_ref := 0; canvas_width := 1600; canvas_height := 1200 |}.

Definition collideExtension : Extension :=
  {| extensionName := "CollideExtension" |}.

Definition layerA : Layer :=
  {| layer_ref := 1; visible := true; extensions := [collideExtension];
     collideEnabled := true; getBounds := Some 10 |}.

Definition layerB : Layer :=
  {| layer_ref := 2; visible := true; extensions := [collideExtension];
     collideEnabled := true; getBounds := Some 11 |}.

(** [layerA] after its positions were updated: a new bounds object. *)
Definition layerA_moved : Layer :=
  {| layer_ref := 1; visible := true; extensions := [collideExtension];
     collideEnabled := true; getBounds := Some 12 |}.

(** A hidden layer that has collisions enabled. *)
Definition hiddenLayer : Layer :=
  {| layer_ref := 3; visible := false; extensions := [collideExtension];
     collideEnabled := true; getBounds := Some 13 |}.

Definition viewport_z10 : MapViewport :=
  {| vp_width := 800; vp_height := 600;
     vp_longitude := 0; vp_latitude := 0; vp_zoom := 10 |}.

Definition viewport_z11 : MapViewport :=
  {| vp_width := 800; vp_height := 600;
     vp_longitude := 0; vp_latitude := 0; vp_zoom := 11 |}.

Definition options (ls : list Layer) (vs : list MapViewport) : Options :=
  @Build_PreRenderOptions map_host ls tt vs tt tt.

Definition two_layers : Options := options [layerA; layerB] [viewport_z10].
Definition two_layers_zoomed : Options := options [layerA; layerB] [viewport_z11].
Definition two_layers_moved : Options := options [layerA_moved; layerB] [viewport_z10].
Definition no_collide_layers : Options := options [hiddenLayer] [viewport_z10].

(** A newly constructed effect. *)
Definition new_effect : State := {| this := initial; next_ref := 100 |}.

Definition after_first_frame : State := state_after (preRender canvas_800x600 two_layers) new_effect.

Definition after_empty_frame : State :=
  state_after (preRender canvas_1600x1200 no_collide_layers) after_first_frame.

Definition after_teardown : State := state_after cleanup after_empty_frame.

(** A new canvas element, 300 by 150 and unstyled. *)
Definition blank_canvas : Overlay.Canvas :=
  {| Overlay.canvas_id := "";
     Overlay.style_zIndex := "";
     Overlay.style_position := "";
     Overlay.style_top := "";
     Overlay.style_right := "";
     Overlay.style_border := "";
     Overlay.style_transform := "";
     Overlay.style_width := None;
     Overlay.width := 300;
     Overlay.height := 150;
     Overlay.image := [] |}.

(** A mask of two pixels in one row, and its read-back. *)
Definition mask_2x1 : Overlay.Mask :=
  {| Overlay.mask_width := 2; Overlay.mask_height := 1 |}.

Definition color_2x1 : list Z := [10; 20; 30; 255; 40; 50; 60; 255]%Z.

(** A read-back that is too short and holds numbers that are no
    bytes. *)
Definition short_readback : list Z := [300; -4; 7]%Z.

(** The mask of a canvas of 5 by 3 pixels, 2.5 by 1.5, and a read-back
    of fifteen numbers. *)
Definition mask_of_odd_canvas : Overlay.Mask :=
  {| Overlay.mask_width := 5 # 2; Overlay.mask_height := 3 # 2 |}.

Definition color_of_odd_canvas : list Z :=
  [1; 2; 3; 4; 5; 6; 7; 8; 9; 10; 11; 12; 13; 14; 15]%Z.


End Scenario.

(** * Properties *)

Section Properties.

Context {host : Host}.

(** ** Proof support *)

Local Arguments renderInfoUpdated : simpl never.
Local Arguments viewportChanged : simpl never.
Local Arguments nth_error : simpl never.
Local Arguments Qdiv : simpl never.
Local Arguments inject_Z : simpl never.

Lemma renderInfoUpdated_same ri : renderInfoUpdated ri ri = true.
Proof. unfold renderInfoUpdated. now rewrite Nat.eqb_refl. Qed.

Ltac unfold_frame :=
  unfold completion_of, state_after, events_of, preRender, _render, _debug, cleanup,
    new_Texture2D, new_CollidePass, when, bind, ret, throw, get_this, assign,
    fresh, emit.

(** Case analysis of a frame with collision layers: which resources
    exist already, whether a render info is cached, and what the
    change detector decides. *)
Ltac nonempty_frame m o :=
  unfold frame_renders, frame_renderInfo, renderInfo_ref, collideLayersOf in *;
  let d := fresh "d" in let pm := fresh "pm" in let old := fresh "old" in
  let cp := fresh "cp" in let cm := fresh "cm" in
  destruct m as [[d pm old ? cp cm ?] ?];
  unfold_frame;
  destruct (filter isCollideLayer (opt_layers o)) as [|? ?] eqn:?; [congruence|];
  destruct d, pm, cp, cm, old, collide; cbn in *;
  rewrite ?renderInfoUpdated_same; cbn;
  repeat match goal with
         | |- context [renderInfoUpdated ?a ?b] => destruct (renderInfoUpdated a b); cbn
         | |- context [viewportChanged ?a ?b] => destruct (viewportChanged a b); cbn
         end.

(** Case analysis of a frame without collision layers. *)
Ltac empty_frame m o H :=
  unfold collideLayersOf in *;
  let d := fresh "d" in
  destruct m as [[d ? ? ? ? ? ?] ?];
  unfold_frame; rewrite H;
  destruct d; cbn in *.

(** *** Frames with collision layers *)

Lemma preRender_nonempty_render_count gl o m :
  collideLayersOf o <> [] ->
  count_render (events_of (preRender gl o) m) = if frame_renders m o then 1 else 0.
Proof. intros Hne. nonempty_frame m o; reflexivity. Qed.

Lemma preRender_nonempty_rendered_layers gl o m :
  collideLayersOf o <> [] ->
  rendered_layers (events_of (preRender gl o) m)
  = if frame_renders m o then collideLayersOf o else [].
Proof.
  intros Hne. unfold rendered_layers.
  nonempty_frame m o; rewrite ?app_nil_r; reflexivity.
Qed.

Lemma preRender_nonempty_oldRenderInfo gl o m :
  collideLayersOf o <> [] ->
  oldRenderInfo (this (state_after (preRender gl o) m)) = Some (frame_renderInfo m o).
Proof. intros Hne. nonempty_frame m o; reflexivity. Qed.

Lemma preRender_nonempty_lastViewport gl o m :
  collideLayersOf o <> [] ->
  lastViewport (this (state_after (preRender gl o) m))
  = if frame_renders m o then nth_error (viewports o) 0 else lastViewport (this m).
Proof. intros Hne. nonempty_frame m o; reflexivity. Qed.

Lemma preRender_nonempty_next_ref gl o m :
  collideLayersOf o <> [] ->
  next_ref (state_after (preRender gl o) m) = S (renderInfo_ref m).
Proof. intros Hne. nonempty_frame m o; reflexivity. Qed.

Lemma preRender_nonempty_haveCollideLayers gl o m :
  collideLayersOf o <> [] ->
  haveCollideLayers (this (state_after (preRender gl o) m)) = true.
Proof. intros Hne. nonempty_frame m o; reflexivity. Qed.

Lemma preRender_nonempty_resources gl o m :
  collideLayersOf o <> [] ->
  let e' := this (state_after (preRender gl o) m) in
  isSome (dummyCollideMap e') = true
  /\ isSome (programManager e') = true
  /\ isSome (collidePass e') = true.
Proof. intros Hne. nonempty_frame m o; auto. Qed.

Lemma preRender_nonempty_resize gl o m :
  collideLayersOf o <> [] ->
  let width := (inject_Z (canvas_width gl) / DOWNSCALE)%Q in
  let height := (inject_Z (canvas_height gl) / DOWNSCALE)%Q in
  exists p,
    collidePass (this (state_after (preRender gl o) m)) = Some p
    /\ fbo_size p = Some (width, height)
    /\ filter is_resize (events_of (preRender gl o) m)
       = [FboResize (pass_ref p) width height].
Proof.
  intros Hne. nonempty_frame m o; eexists; repeat split; reflexivity.
Qed.

(** The pass and its mask stay the ones already provisioned. *)
Lemma preRender_nonempty_keeps_pass gl o m p :
  collideLayersOf o <> [] ->
  collidePass (this m) = Some p ->
  let e' := this (state_after (preRender gl o) m) in
  option_map pass_ref (collidePass e') = Some (pass_ref p)
  /\ option_map pass_collideMap (collidePass e') = Some (pass_collideMap p)
  /\ collideMap e' = collideMap (this m).
Proof.
  intros Hne Hp. nonempty_frame m o; inversion Hp; subst; auto.
Qed.

(** *** Frames without collision layers *)

Lemma preRender_empty gl o m :
  collideLayersOf o = [] ->
  preRender gl o m
  = match dummyCollideMap (this m) with
    | Some _ =>
        (Normal tt,
         {| this := with_oldRenderInfo None (with_haveCollideLayers false (this m));
            next_ref := next_ref m |},
         [])
    | None =>
        let t := {| tex_ref := next_ref m |} in
        (Normal tt,
         {| this := with_oldRenderInfo None
                      (with_haveCollideLayers false
                         (with_dummyCollideMap (Some t) (this m)));
            next_ref := S (next_ref m) |},
         [NewTexture2D t (gl_ref gl) 1 1])
    end.
Proof. intros He. empty_frame m o He; reflexivity. Qed.

(** *** Every frame *)

Lemma preRender_provisions_dummy gl o m :
  isSome (dummyCollideMap (this (state_after (preRender gl o) m))) = true.
Proof.
  destruct (collideLayersOf o) eqn:E.
  - unfold state_after. rewrite (preRender_empty gl o m E).
    destruct (dummyCollideMap (this m)) eqn:D; cbn; [now rewrite D | reflexivity].
  - apply preRender_nonempty_resources. congruence.
Qed.

Lemma wf_new n : wf {| this := initial; next_ref := n |}.
Proof. unfold wf, initial; cbn. repeat split; intros; discriminate. Qed.

Lemma wf_preRender gl o m : wf m -> wf (state_after (preRender gl o) m).
Proof.
  intros (Hmap & Hres & Hold & Hfresh).
  destruct (collideLayersOf o) eqn:E.
  - unfold state_after. rewrite (preRender_empty gl o m E).
    destruct m as [[d pm old have cp cm lv] n]; destruct d; cbn in *;
      repeat split; auto; intros; discriminate.
  - assert (Hne : collideLayersOf o <> []) by congruence. clear E.
    unfold wf.
    nonempty_frame m o; repeat split; auto;
      try congruence; try discriminate;
      try (intros ri Hri; inversion Hri; subst; cbn; lia).
Qed.

Lemma wf_cleanup m : wf m -> wf (state_after cleanup m).
Proof.
  intros (Hmap & _).
  destruct m as [[d pm old have cp cm lv] n].
  unfold wf. unfold_frame.
  destruct d, have, pm, cp; cbn in *; repeat split; intros; try discriminate; auto.
Qed.

Lemma reachable_wf m : reachable m -> wf m.
Proof.
  induction 1; auto using wf_new, wf_preRender, wf_cleanup.
Qed.

(** On a well-formed state a frame with collision layers makes the
    debug call, once and last. *)
Lemma preRender_nonempty_debug gl o m :
  wf m ->
  collideLayersOf o <> [] ->
  count_debug (events_of (preRender gl o) m) = 1
  /\ exists t before,
       collideMap (this (state_after (preRender gl o) m)) = Some t
       /\ events_of (preRender gl o) m = before ++ [DebugOverlay t].
Proof.
  intros (Hmap & _) Hne. unfold count_debug.
  nonempty_frame m o; try discriminate;
    (split; [reflexivity |]);
    eexists; eexists; (split; [reflexivity |]);
    match goal with
    | |- ?l = _ ++ [_] =>
        let r := eval cbn in (removelast l) in
        instantiate (1 := r); reflexivity
    end.
Qed.

(** ** The change detector *)

Lemma strict_neq_spec b entry : strict_neq b entry = true <-> entry <> Some b.
Proof.
  destruct entry as [[r'|]|], b as [r|]; cbn;
    rewrite ?negb_true_iff, ?Nat.eqb_neq; split; intros; congruence.
Qed.

Lemma strict_neq_same b : strict_neq b (Some b) = false.
Proof.
  destruct (strict_neq b (Some b)) eqn:E; [|reflexivity].
  apply strict_neq_spec in E. congruence.
Qed.

Lemma some_from_at {A} (f : A -> nat -> bool) a : forall k i b,
  nth_error a i = Some b -> f b (k + i) = true -> some_from f k a = true.
Proof.
  induction a as [|x a IH]; intros k i b Hi Hf.
  - destruct i; discriminate.
  - destruct i as [|i]; cbn in *.
    + inversion Hi; subst. rewrite Nat.add_0_r in Hf. now rewrite Hf.
    + rewrite (IH (S k) i b Hi); [apply orb_true_r|].
      now replace (S k + i) with (k + S i) by lia.
Qed.

(** Comparing an array of bounds with itself finds no change. *)
Lemma some_from_same (a : list (option Ref)) : forall before,
  some_from (fun b i => strict_neq b (nth_error (before ++ a) i))
            (List.length before) a = false.
Proof.
  induction a as [|x a IH]; intros before; [reflexivity|].
  cbn [some_from].
  rewrite nth_error_app2, Nat.sub_diag by lia. cbn [nth_error].
  rewrite strict_neq_same. cbn [orb].
  specialize (IH (before ++ [x])).
  rewrite <- app_assoc, length_app in IH. cbn in IH.
  now rewrite Nat.add_1_r in IH.
Qed.

Lemma renderInfoUpdated_bounds ri old i b :
  nth_error (layerBounds ri) i = Some b ->
  nth_error (layerBounds old) i <> Some b ->
  renderInfoUpdated ri old = true.
Proof.
  intros Hi Hneq. unfold renderInfoUpdated, some.
  rewrite (some_from_at _ _ 0 i b Hi); [apply orb_true_r|].
  now apply strict_neq_spec.
Qed.

(** A later render info with the same layers and the same bounds
    references is no update. *)
Lemma renderInfoUpdated_unchanged ri old :
  ri_ref ri <> ri_ref old ->
  layers ri = layers old ->
  layerBounds ri = layerBounds old ->
  renderInfoUpdated ri old = false.
Proof.
  intros Href Hl Hb. unfold renderInfoUpdated, some.
  rewrite Hl, Hb, Nat.eqb_refl.
  apply Nat.eqb_neq in Href. rewrite Href. cbn.
  exact (some_from_same (layerBounds old) []).
Qed.

Lemma frame_renders_first gl o m :
  collideLayersOf o <> [] ->
  oldRenderInfo (this m) = None ->
  count_render (events_of (preRender gl o) m) = 1.
Proof.
  intros Hne Hold. rewrite preRender_nonempty_render_count by assumption.
  unfold frame_renders. now rewrite Hold.
Qed.

(** Repeating a frame: the second of two calls with the same inputs
    does not render, provided a viewport is given and equals itself. *)
Lemma preRender_repeat_no_render gl o m v :
  collideLayersOf o <> [] ->
  nth_error (viewports o) 0 = Some v ->
  equals v (Some v) = true ->
  count_render (events_of (preRender gl o) (state_after (preRender gl o) m)) = 0.
Proof.
  intros Hne Hv Hrefl.
  rewrite preRender_nonempty_render_count by assumption.
  pose proof (preRender_nonempty_oldRenderInfo gl o m Hne) as Hold.
  pose proof (preRender_nonempty_lastViewport gl o m Hne) as Hlv.
  pose proof (preRender_nonempty_next_ref gl o m Hne) as Hn.
  destruct (preRender_nonempty_resources gl o m Hne) as (Hd & _ & Hp).
  set (m1 := state_after (preRender gl o) m) in *.
  unfold frame_renders at 1. rewrite Hold, Hlv.
  rewrite renderInfoUpdated_unchanged; cbn; try reflexivity.
  - rewrite Hv. destruct (frame_renders m o) eqn:Hr.
    + unfold viewportChanged. now rewrite Hrefl.
    + unfold frame_renders in Hr. apply orb_false_iff in Hr.
      rewrite Hv in Hr. destruct Hr as [_ Hr]. now rewrite Hr.
  - unfold renderInfo_ref at 1. rewrite Hd, Hp, Hn. lia.
Qed.

(** ** The filter *)

Lemma isCollideLayer_spec l :
  isCollideLayer l = true
  <-> visible l = true
      /\ (exists e, In e (extensions l) /\ extensionName e = "CollideExtension"%string)
      /\ collideEnabled l = true.
Proof.
  unfold isCollideLayer. rewrite !andb_true_iff.
  assert (Hfind : isSome (find isCollideExtension (extensions l)) = true
                  <-> exists e, In e (extensions l)
                                /\ extensionName e = "CollideExtension"%string).
  { split.
    - destruct (find isCollideExtension (extensions l)) as [e|] eqn:F; [|discriminate].
      intros _. apply find_some in F. exists e.
      split; [apply F | apply String.eqb_eq, F].
    - intros (e & Hin & Hname).
      destruct (find isCollideExtension (extensions l)) eqn:F; [reflexivity|].
      apply (find_none _ _ F) in Hin. unfold isCollideExtension in Hin.
      apply String.eqb_neq in Hin. contradiction. }
  rewrite Hfind. tauto.
Qed.

(** ** Teardown *)

Lemma cleanup_run m :
  cleanup m
  = (Normal tt,
     {| this :=
          {| dummyCollideMap := None;
             programManager :=
               if haveCollideLayers (this m) then None else programManager (this m);
             oldRenderInfo := None;
             haveCollideLayers := false;
             collidePass := None;
             collideMap :=
               match collidePass (this m) with
               | Some _ => None
               | None => collideMap (this m)
               end;
             lastViewport := None |};
        next_ref := next_ref m |},
     match dummyCollideMap (this m) with
     | Some t => [TextureDelete t]
     | None => []
     end
     ++ (if haveCollideLayers (this m) then
           match programManager (this m) with
           | Some pm => [RemoveDefaultModule pm collide]
           | None => []
           end
         else [])
     ++ match collidePass (this m) with
        | Some p => [PassDelete (pass_ref p)]
        | None => []
        end).
Proof.
  destruct m as [[d pm old have cp cm lv] n].
  unfold_frame. destruct d, have, pm, cp; reflexivity.
Qed.

(** ** Properties of the effect *)

(** C1 (as amended).  After every [preRender] call made on a reachable
    state, the [collideMap] that [getModuleParameters] exposes is not
    null: it is the real mask (the texture of the collide pass) when
    [haveCollideLayers] is true and the dummy texture otherwise.  On a
    new effect, and right after [cleanup] whatever the state it is
    called in, the exposed [collideMap] is undefined. *)
Theorem C1_exposed_collideMap_after_frame gl o m :
  reachable m ->
  (let e' := this (state_after (preRender gl o) m) in
   exists t,
     param_collideMap (getModuleParameters e') = Some t
     /\ (haveCollideLayers e' = true ->
         option_map pass_collideMap (collidePass e') = Some t)
     /\ (haveCollideLayers e' = false -> dummyCollideMap e' = Some t))
  /\ param_collideMap (getModuleParameters initial) = None
  /\ param_collideMap (getModuleParameters (this (state_after cleanup m))) = None.
Proof.
  intros Hr. split; [| split; [reflexivity |]].
  - intros e'.
    assert (Hwf : wf (state_after (preRender gl o) m))
      by (apply wf_preRender, reachable_wf, Hr).
    destruct Hwf as (Hmap & Hres & _).
    pose proof (preRender_provisions_dummy gl o m) as Hd.
    fold e' in Hmap, Hres, Hd. unfold getModuleParameters. cbn.
    destruct (haveCollideLayers e') eqn:Hh.
    + destruct (Hres eq_refl) as (_ & Hp).
      destruct (collidePass e') as [p|] eqn:Ep; [|discriminate].
      exists (pass_collideMap p). rewrite Hmap. cbn.
      repeat split; auto. discriminate.
    + destruct (dummyCollideMap e') as [t|] eqn:Ed; [|discriminate].
      exists t. repeat split; auto. discriminate.
  - unfold state_after. rewrite cleanup_run. reflexivity.
Qed.

(** C2 (as amended).  When the collision-layer set is not empty, the
    first viewport is present and equals itself, and the change
    detector decides to render on the first call (no render info is
    cached, or the layer count, a bound reference or the viewport has
    changed), two successive [preRender] calls with the same inputs
    invoke the render pass exactly once on the first call and not at
    all on the second. *)
Theorem C2_identical_frames_render_once gl o m v :
  collideLayersOf o <> [] ->
  nth_error (viewports o) 0 = Some v ->
  equals v (Some v) = true ->
  frame_renders m o = true ->
  renders_once_then_never gl o m.
Proof.
  intros Hne Hv Hrefl Hfirst. split.
  - rewrite preRender_nonempty_render_count by assumption. now rewrite Hfirst.
  - now apply preRender_repeat_no_render with (v := v).
Qed.

(** C3.  On a frame with collision layers the render pass is invoked
    when the viewport differs by value from the viewport of the last
    render, and also when the bound reference at some index differs
    from the cached render info's entry at that index. *)
Theorem C3_change_detection_conservative gl o m :
  collideLayersOf o <> [] ->
  (forall lv,
      lastViewport (this m) = Some lv ->
      equals lv (nth_error (viewports o) 0) = false ->
      count_render (events_of (preRender gl o) m) = 1)
  /\ (forall old i b,
         oldRenderInfo (this m) = Some old ->
         nth_error (map getBounds (collideLayersOf o)) i = Some b ->
         nth_error (layerBounds old) i <> Some b ->
         count_render (events_of (preRender gl o) m) = 1).
Proof.
  intros Hne. split.
  - intros lv Hlv Hdiff.
    rewrite preRender_nonempty_render_count by assumption.
    unfold frame_renders, viewportChanged. rewrite Hlv, Hdiff.
    now rewrite orb_true_r.
  - intros old i b Hold Hi Hneq.
    rewrite preRender_nonempty_render_count by assumption.
    unfold frame_renders. rewrite Hold.
    now rewrite (renderInfoUpdated_bounds (frame_renderInfo m o) old i b Hi Hneq).
Qed.

(** C4.  A frame with collision layers that is the first frame of the
    effect, or that follows a frame without collision layers, invokes
    the render pass, whatever the viewport and the bounds. *)
Theorem C4_first_appearance_forces_render gl o m :
  collideLayersOf o <> [] ->
  (this m = initial
   \/ exists gl0 o0 m0,
        collideLayersOf o0 = [] /\ m = state_after (preRender gl0 o0) m0) ->
  count_render (events_of (preRender gl o) m) = 1.
Proof.
  intros Hne Hprev. apply frame_renders_first; [assumption|].
  destruct Hprev as [Hinit | (gl0 & o0 & m0 & He & ->)].
  - now rewrite Hinit.
  - unfold state_after. rewrite (preRender_empty gl0 o0 m0 He).
    now destruct (dummyCollideMap (this m0)).
Qed.

(** C5.  A frame without collision layers leaves [haveCollideLayers]
    false and [oldRenderInfo] null, exposes the dummy texture, and does
    not touch [lastViewport], whatever state it starts in. *)
Theorem C5_empty_frame gl o m :
  collideLayersOf o = [] ->
  let e' := this (state_after (preRender gl o) m) in
  haveCollideLayers e' = false
  /\ oldRenderInfo e' = None
  /\ (exists t, dummyCollideMap e' = Some t
                /\ param_collideMap (getModuleParameters e') = Some t)
  /\ param_haveCollideLayers (getModuleParameters e') = false
  /\ lastViewport e' = lastViewport (this m).
Proof.
  intros He e'. subst e'. unfold state_after.
  rewrite (preRender_empty gl o m He).
  destruct (dummyCollideMap (this m)) as [t|] eqn:Ed; cbn;
    repeat split; eauto.
Qed.

(** C6 (as amended).  On every frame with collision layers the
    framebuffer of the pass is resized, exactly once, to
    [(canvas.width / 2, canvas.height / 2)], and has that size after the
    frame, whether or not the frame renders.  On every frame without
    collision layers the pass, if there is one, is left as it is and
    no resize is made. *)
Theorem C6_resize_on_collide_frames gl o m :
  (collideLayersOf o <> [] ->
   let width := (inject_Z (canvas_width gl) / DOWNSCALE)%Q in
   let height := (inject_Z (canvas_height gl) / DOWNSCALE)%Q in
   (width == canvas_width gl # 2)%Q
   /\ (height == canvas_height gl # 2)%Q
   /\ exists p,
        collidePass (this (state_after (preRender gl o) m)) = Some p
        /\ fbo_size p = Some (width, height)
        /\ filter is_resize (events_of (preRender gl o) m)
           = [FboResize (pass_ref p) width height])
  /\ (collideLayersOf o = [] ->
      collidePass (this (state_after (preRender gl o) m)) = collidePass (this m)
      /\ count_resize (events_of (preRender gl o) m) = 0).
Proof.
  split.
  - intros Hne width height.
    split; [|split].
    + unfold width, DOWNSCALE, Qdiv, Qeq, inject_Z. cbn. lia.
    + unfold height, DOWNSCALE, Qdiv, Qeq, inject_Z. cbn. lia.
    + exact (preRender_nonempty_resize gl o m Hne).
  - intros He. unfold state_after, events_of. rewrite (preRender_empty gl o m He).
    destruct (dummyCollideMap (this m)); split; reflexivity.
Qed.

(** What [cleanup] does by its guards: it never raises and is
    idempotent (a second call changes nothing and calls nothing); it
    deletes the dummy texture and the pass that exist, and from every
    reachable state it resets every field other than [programManager];
    when [haveCollideLayers] is true at teardown, [programManager] is
    reset too and the effect is back in its initial state. *)
Lemma cleanup_resets m :
  reachable m ->
  let m' := state_after cleanup m in
  completion_of cleanup m = Normal tt
  /\ cleanup m' = (Normal tt, m', [])
  /\ with_programManager None (this m') = initial
  /\ (haveCollideLayers (this m) = true -> this m' = initial)
  /\ (forall t, dummyCollideMap (this m) = Some t ->
                In (TextureDelete t) (events_of cleanup m))
  /\ (forall p, collidePass (this m) = Some p ->
                In (PassDelete (pass_ref p)) (events_of cleanup m)).
Proof.
  intros Hr m'. apply reachable_wf in Hr. destruct Hr as (Hmap & _).
  subst m'. unfold completion_of, state_after, events_of.
  rewrite (cleanup_run (snd (fst (cleanup m)))). rewrite !cleanup_run. cbn.
  assert (Hcm : match collidePass (this m) with
                | Some _ => None
                | None => collideMap (this m)
                end = None).
  { rewrite Hmap. now destruct (collidePass (this m)). }
  rewrite Hcm.
  repeat split.
  - intros Hh. now rewrite Hh.
  - intros t Ht. rewrite Ht. now left.
  - intros p Hp. rewrite Hp. rewrite !in_app_iff. right. right. now left.
Qed.

(** C8 (as amended).  On every frame with collision layers, from a
    reachable state, [preRender] calls [_debug] once, as its last
    call and on the texture [collideMap] holds, whether or not the
    frame renders.  On every frame without collision layers
    [preRender] does not call [_debug]. *)
Theorem C8_debug_on_collide_frames gl o m :
  reachable m ->
  (collideLayersOf o <> [] ->
   count_debug (events_of (preRender gl o) m) = 1
   /\ exists t before,
        collideMap (this (state_after (preRender gl o) m)) = Some t
        /\ events_of (preRender gl o) m = before ++ [DebugOverlay t])
  /\ (collideLayersOf o = [] ->
      count_debug (events_of (preRender gl o) m) = 0).
Proof.
  intros Hr. split.
  - intros Hne. apply preRender_nonempty_debug; [|assumption].
    now apply reachable_wf.
  - intros He. unfold events_of. rewrite (preRender_empty gl o m He).
    now destruct (dummyCollideMap (this m)).
Qed.

(** C9.  On a frame with collision layers on which the change detector
    decides that no render is needed, the render pass is not invoked
    and [oldRenderInfo] is the render info built on that frame. *)
Theorem C9_skipped_frame_updates_oldRenderInfo gl o m :
  collideLayersOf o <> [] ->
  frame_renders m o = false ->
  count_render (events_of (preRender gl o) m) = 0
  /\ oldRenderInfo (this (state_after (preRender gl o) m))
     = Some (frame_renderInfo m o).
Proof.
  intros Hne Hno. split.
  - rewrite preRender_nonempty_render_count by assumption. now rewrite Hno.
  - now apply preRender_nonempty_oldRenderInfo.
Qed.

(** C10.  A layer is in the collision-layer set only if it is visible,
    has an extension named [CollideExtension] and has [collideEnabled]
    set; only layers of that set are handed to the render pass; and
    [haveCollideLayers] is true after a frame only if some layer of
    the frame meets the three conditions. *)
Theorem C10_collision_layer_filter gl o m :
  let qualifies (l : Layer) :=
    visible l = true
    /\ (exists e, In e (extensions l)
                  /\ extensionName e = "CollideExtension"%string)
    /\ collideEnabled l = true in
  (forall l, In l (collideLayersOf o) -> In l (opt_layers o) /\ qualifies l)
  /\ (forall l, In l (rendered_layers (events_of (preRender gl o) m)) ->
                In l (opt_layers o) /\ qualifies l)
  /\ (haveCollideLayers (this (state_after (preRender gl o) m)) = true ->
      exists l, In l (opt_layers o) /\ qualifies l).
Proof.
  intros qualifies.
  assert (Hset : forall l, In l (collideLayersOf o) ->
                           In l (opt_layers o) /\ qualifies l).
  { intros l Hin. apply filter_In in Hin. destruct Hin as (Hin & Hq).
    split; [assumption | now apply isCollideLayer_spec]. }
  split; [exact Hset | split].
  - intros l Hin. apply Hset.
    destruct (collideLayersOf o) eqn:E.
    + unfold events_of in Hin. rewrite (preRender_empty gl o m E) in Hin.
      destruct (dummyCollideMap (this m)); cbn in Hin; contradiction.
    + rewrite preRender_nonempty_rendered_layers in Hin by congruence.
      rewrite E in Hin. destruct (frame_renders m o); [assumption | contradiction].
  - intros Hh.
    remember (collideLayersOf o) as cl eqn:E. symmetry in E.
    destruct cl as [|l ls].
    + unfold state_after in Hh. rewrite (preRender_empty gl o m E) in Hh.
      destruct (dummyCollideMap (this m)); cbn in Hh; discriminate.
    + exists l. apply Hset. now left.
Qed.

(** ** The calls of a frame *)

Lemma count_app kind (a b : list Event) :
  count kind (a ++ b) = count kind a + count kind b.
Proof. unfold count. now rewrite filter_app, length_app. Qed.

(** What a frame with collision layers leaves and calls, from any
    state. *)
Lemma preRender_nonempty_summary gl o m :
  collideLayersOf o <> [] ->
  let m' := state_after (preRender gl o) m in
  exists p,
    collidePass (this m') = Some p
    /\ dummyCollideMap (this m')
       = Some match dummyCollideMap (this m) with
              | Some t => t
              | None => {| tex_ref := next_ref m |}
              end
    /\ programManager (this m')
       = Some match programManager (this m) with
              | Some pm => pm
              | None => getDefaultProgramManager gl
              end
    /\ events_of (preRender gl o) m
       = provisioning gl m
         ++ [FboResize (pass_ref p)
               (inject_Z (canvas_width gl) / DOWNSCALE)%Q
               (inject_Z (canvas_height gl) / DOWNSCALE)%Q]
         ++ (if frame_renders m o then
               [PassRender (pass_ref p)
                  {| rc_layers := collideLayersOf o;
                     rc_layerFilter := layerFilter o;
                     rc_viewports :=
                       match nth_error (viewports o) 0 with
                       | Some v => [v]
                       | None => []
                       end;
                     rc_onViewportActive := onViewportActive o;
                     rc_views := views o;
                     rc_ratio_gl := pass_gl p |}]
             else [])
         ++ match collideMap (this m') with
            | Some t => [DebugOverlay t]
            | None => []
            end.
Proof.
  intros Hne m'. subst m'. unfold provisioning.
  nonempty_frame m o; eexists; repeat split; reflexivity.
Qed.

Lemma provisioning_counts gl m :
  count is_new_texture (provisioning gl m) + live (dummyCollideMap (this m)) = 1
  /\ count is_new_pass (provisioning gl m) + live (collidePass (this m)) = 1
  /\ count is_add_module (provisioning gl m) + live (programManager (this m))
     = Nat.max (live collide) (live (programManager (this m)))
  /\ count is_texture_delete (provisioning gl m) = 0
  /\ count is_pass_delete (provisioning gl m) = 0
  /\ count is_remove_module (provisioning gl m) = 0.
Proof.
  unfold provisioning, live.
  destruct (dummyCollideMap (this m)), (programManager (this m)),
    (collidePass (this m)), collide; cbn; repeat split.
Qed.



Lemma option_eq_dec_ref (x y : option Ref) : {x = y} + {x <> y}.
Proof. repeat decide equality. Qed.

(** A cached render info was built by [preRender]: its bounds are
    those of its layers. *)
Lemma reachable_renderInfo_shape m old :
  reachable m ->
  oldRenderInfo (this m) = Some old ->
  layerBounds old = map getBounds (layers old).
Proof.
  intros Hr. revert old. induction Hr as [n | gl o m Hr IH | m Hr IH]; intros old Hold.
  - discriminate.
  - destruct (collideLayersOf o) eqn:E.
    + unfold state_after in Hold. rewrite (preRender_empty gl o m E) in Hold.
      destruct (dummyCollideMap (this m)); discriminate.
    + rewrite preRender_nonempty_oldRenderInfo in Hold by congruence.
      inversion Hold. reflexivity.
  - unfold state_after in Hold. rewrite cleanup_run in Hold. discriminate.
Qed.

(** When [some] finds no changed entry and the arrays have the same
    length, they hold the same references. *)
Lemma some_from_false_eq (new : list (option Ref)) : forall before old,
  List.length old = List.length new ->
  some_from (fun b i => strict_neq b (nth_error (before ++ old) i))
            (List.length before) new = false ->
  old = new.
Proof.
  induction new as [|b new IH]; intros before old Hlen Hsome.
  - now destruct old.
  - destruct old as [|x old]; [discriminate|].
    cbn [some_from] in Hsome. apply orb_false_iff in Hsome.
    destruct Hsome as (Hhead & Htail).
    rewrite nth_error_app2, Nat.sub_diag in Hhead by lia.
    change (nth_error (x :: old) 0) with (Some x) in Hhead.
    assert (x = b).
    { destruct (option_eq_dec_ref x b) as [-> | Hneq]; [reflexivity|].
      assert (strict_neq b (Some x) = true) by (apply strict_neq_spec; congruence).
      congruence. }
    subst x. f_equal.
    apply (IH (before ++ [b]) old); [cbn in Hlen; lia|].
    rewrite <- app_assoc, length_app. cbn. now rewrite Nat.add_1_r.
Qed.

(** ** Further properties of the effect *)

(** X1.  On a frame with collision layers, from a reachable state, the
    effect first creates what it lacks, then resizes the framebuffer,
    then renders at most once, then draws the debug overlay.  The
    render call is made on the pass that was resized and gets the
    collision layers, the first viewport alone (or none), and the
    frame's [layerFilter], [onViewportActive] and [views] untouched;
    the overlay shows that pass's texture. *)
Theorem X1_frame_calls_in_order gl o m :
  reachable m ->
  collideLayersOf o <> [] ->
  exists p,
    collidePass (this (state_after (preRender gl o) m)) = Some p
    /\ events_of (preRender gl o) m
       = provisioning gl m
         ++ [FboResize (pass_ref p)
               (inject_Z (canvas_width gl) / DOWNSCALE)%Q
               (inject_Z (canvas_height gl) / DOWNSCALE)%Q]
         ++ (if frame_renders m o then
               [PassRender (pass_ref p)
                  {| rc_layers := collideLayersOf o;
                     rc_layerFilter := layerFilter o;
                     rc_viewports :=
                       match nth_error (viewports o) 0 with
                       | Some v => [v]
                       | None => []
                       end;
                     rc_onViewportActive := onViewportActive o;
                     rc_views := views o;
                     rc_ratio_gl := pass_gl p |}]
             else [])
         ++ [DebugOverlay (pass_collideMap p)].
Proof.
  intros Hr Hne.
  destruct (preRender_nonempty_summary gl o m Hne) as (p & Hp & _ & _ & Ht).
  assert (Hwf : wf (state_after (preRender gl o) m))
    by (apply wf_preRender, reachable_wf, Hr).
  destruct Hwf as (Hmap & _). rewrite Hp in Hmap. cbn in Hmap.
  rewrite Hmap in Ht. exists p. split; assumption.
Qed.

(** X2.  On a reachable state that caches a render info, a frame with
    collision layers skips the render exactly when the bounds
    references are the cached ones (as many, and the same reference at
    every index) and the last rendered viewport equals the first
    viewport of the frame.  The layers themselves are not compared. *)
Theorem X2_render_skipped_iff gl o m old :
  reachable m ->
  collideLayersOf o <> [] ->
  oldRenderInfo (this m) = Some old ->
  count_render (events_of (preRender gl o) m) = 0
  <-> layerBounds old = map getBounds (collideLayersOf o)
      /\ exists lv, lastViewport (this m) = Some lv
                    /\ equals lv (nth_error (viewports o) 0) = true.
Proof.
  intros Hr Hne Hold.
  pose proof (reachable_renderInfo_shape m old Hr Hold) as Hshape.
  destruct (reachable_wf m Hr) as (_ & _ & _ & Hfresh).
  specialize (Hfresh old Hold).
  assert (Hge : next_ref m <= renderInfo_ref m).
  { unfold renderInfo_ref.
    destruct (isSome (dummyCollideMap (this m))), (isSome (collidePass (this m))); lia. }
  rewrite preRender_nonempty_render_count by assumption.
  unfold frame_renders. rewrite Hold.
  unfold renderInfoUpdated, viewportChanged, some. cbn [ri_ref layers layerBounds frame_renderInfo].
  assert (Href : (renderInfo_ref m =? ri_ref old) = false) by (apply Nat.eqb_neq; lia).
  rewrite Href. cbn [orb].
  split.
  - intros Hskip.
    destruct (negb (List.length (layers old) =? List.length (collideLayersOf o))
              || some_from
                   (fun b i => strict_neq b (nth_error (layerBounds old) i)) 0
                   (map getBounds (collideLayersOf o))
              || match lastViewport (this m) with
                 | Some lv => negb (equals lv (nth_error (viewports o) 0))
                 | None => true
                 end) eqn:Hd; [discriminate|].
    apply orb_false_iff in Hd. destruct Hd as (Hd & Hv).
    apply orb_false_iff in Hd. destruct Hd as (Hlen & Hsome).
    apply negb_false_iff, Nat.eqb_eq in Hlen.
    split.
    + apply (some_from_false_eq _ [] (layerBounds old)); [|exact Hsome].
      rewrite Hshape, !length_map. exact Hlen.
    + destruct (lastViewport (this m)) as [lv|]; [|discriminate].
      exists lv. split; [reflexivity|]. now apply negb_false_iff.
  - intros (Hb & lv & Hlv & Heq).
    assert (Hlen : List.length (layers old) = List.length (collideLayersOf o)).
    { rewrite <- (length_map getBounds (layers old)), <- Hshape, Hb.
      apply length_map. }
    rewrite Hlen, Nat.eqb_refl, Hlv, Heq. cbn [negb orb].
    rewrite <- Hb.
    pose proof (some_from_same (layerBounds old) []) as Hs.
    cbn [app List.length] in Hs. now rewrite Hs.
Qed.

(** X3.  [lastViewport] is the viewport of the last render: a frame
    that invokes the render pass stores the first viewport of the frame
    (undefined when there is none); a frame that does not, with or
    without collision layers, leaves [lastViewport] as it was. *)
Theorem X3_lastViewport_follows_render gl o m :
  let t := events_of (preRender gl o) m in
  let e' := this (state_after (preRender gl o) m) in
  (count_render t = 0 \/ count_render t = 1)
  /\ (count_render t = 1 -> lastViewport e' = nth_error (viewports o) 0)
  /\ (count_render t = 0 -> lastViewport e' = lastViewport (this m)).
Proof.
  cbn zeta. destruct (collideLayersOf o) eqn:E.
  - unfold events_of, state_after. rewrite (preRender_empty gl o m E).
    destruct (dummyCollideMap (this m)); cbn; repeat split; auto; discriminate.
  - assert (Hne : collideLayersOf o <> []) by congruence.
    rewrite preRender_nonempty_render_count, preRender_nonempty_lastViewport
      by assumption.
    destruct (frame_renders m o); repeat split; auto; discriminate.
Qed.

(** X4.  Resources are created once and reused: on any frame, a dummy
    texture, a program manager or a collide pass that the effect holds
    already is kept (the pass with its texture, which stays the
    exposed mask) and none is created in its place. *)
Theorem X4_provisioned_resources_reused gl o m :
  let t := events_of (preRender gl o) m in
  let e' := this (state_after (preRender gl o) m) in
  (forall d, dummyCollideMap (this m) = Some d ->
             dummyCollideMap e' = Some d /\ count is_new_texture t = 0)
  /\ (forall pm, programManager (this m) = Some pm ->
                 programManager e' = Some pm /\ count is_add_module t = 0)
  /\ (forall p, collidePass (this m) = Some p ->
                option_map pass_ref (collidePass e') = Some (pass_ref p)
                /\ option_map pass_collideMap (collidePass e') = Some (pass_collideMap p)
                /\ collideMap e' = collideMap (this m)
                /\ count is_new_pass t = 0).
Proof.
  cbn zeta.
  destruct (collideLayersOf o) eqn:E.
  - unfold events_of, state_after. rewrite (preRender_empty gl o m E).
    destruct (dummyCollideMap (this m)) eqn:Ed; cbn;
      (split; [|split]); intros x Hx; repeat split; auto;
      try discriminate; try congruence; now rewrite Hx.
  - assert (Hne : collideLayersOf o <> []) by congruence.
    destruct (preRender_nonempty_summary gl o m Hne) as (p' & Hp' & Hd & Hpm & Ht).
    destruct (provisioning_counts gl m) as (C1 & C2 & C3 & _).
    split; [|split].
    + intros d Hdm. rewrite Hd, Hdm. split; [reflexivity|].
      rewrite Hdm in C1. rewrite Ht, !count_app.
      destruct (frame_renders m o),
        (collideMap (this (state_after (preRender gl o) m)));
        unfold count, live in *;
        cbn [filter List.length app isSome is_new_texture] in *; lia.
    + intros pm Hm. rewrite Hpm, Hm. split; [reflexivity|].
      rewrite Hm in C3. rewrite Ht, !count_app.
      destruct (frame_renders m o),
        (collideMap (this (state_after (preRender gl o) m)));
        unfold count, live in *;
        cbn [filter List.length app isSome is_add_module] in *;
        destruct (isSome collide); cbn in C3; lia.
    + intros p Hp.
      destruct (preRender_nonempty_keeps_pass gl o m p Hne Hp) as (K1 & K2 & K3).
      repeat split; try assumption.
      rewrite Hp in C2. rewrite Ht, !count_app.
      destruct (frame_renders m o),
        (collideMap (this (state_after (preRender gl o) m)));
        unfold count, live in *;
        cbn [filter List.length app isSome is_new_pass] in *; lia.
Qed.


Lemma provisioning_no_render gl m : filter is_render (provisioning gl m) = [].
Proof.
  unfold provisioning.
  destruct (dummyCollideMap (this m)), (programManager (this m)),
    (collidePass (this m)), collide; reflexivity.
Qed.

(** X10.  A frame with collision layers and no viewport always renders,
    with an empty viewport list, when [equals] answers false for an
    undefined argument; it leaves [lastViewport] undefined, so the next
    frame with collision layers renders too, whatever its inputs. *)
Theorem X10_no_viewport_always_renders gl o m :
  collideLayersOf o <> [] ->
  viewports o = [] ->
  (forall lv, equals lv None = false) ->
  let m' := state_after (preRender gl o) m in
  (exists p,
      filter is_render (events_of (preRender gl o) m)
      = [PassRender (pass_ref p)
           {| rc_layers := collideLayersOf o;
              rc_layerFilter := layerFilter o;
              rc_viewports := [];
              rc_onViewportActive := onViewportActive o;
              rc_views := views o;
              rc_ratio_gl := pass_gl p |}])
  /\ lastViewport (this m') = None
  /\ (forall gl' o', collideLayersOf o' <> [] ->
                     count_render (events_of (preRender gl' o') m') = 1).
Proof.
  intros Hne Hv Hundef m'.
  assert (Hr : frame_renders m o = true).
  { unfold frame_renders, viewportChanged. rewrite Hv.
    change (nth_error (@nil Viewport) 0) with (@None Viewport).
    destruct (lastViewport (this m)); [rewrite Hundef|]; apply orb_true_r. }
  assert (Hlv : lastViewport (this m') = None).
  { subst m'. rewrite preRender_nonempty_lastViewport, Hr, Hv by assumption.
    reflexivity. }
  split; [| split; [exact Hlv |]].
  - destruct (preRender_nonempty_summary gl o m Hne) as (p & _ & _ & _ & Ht).
    exists p. rewrite Ht, Hr, Hv. rewrite !filter_app, provisioning_no_render.
    change (nth_error (@nil Viewport) 0) with (@None Viewport).
    destruct (collideMap (this (state_after (preRender gl o) m))); reflexivity.
  - intros gl' o' Hne'. rewrite preRender_nonempty_render_count by assumption.
    unfold frame_renders, viewportChanged. rewrite Hlv. now rewrite orb_true_r.
Qed.

(** X11.  In every reachable state a render info is cached exactly
    while [haveCollideLayers] is true; while it is true the dummy
    texture, the program manager and the collide pass all exist; and
    [collideMap] is always the texture of the pass held, undefined when
    no pass is held. *)
Theorem X11_reachable_state_invariants m :
  reachable m ->
  isSome (oldRenderInfo (this m)) = haveCollideLayers (this m)
  /\ (haveCollideLayers (this m) = true ->
      isSome (dummyCollideMap (this m)) = true
      /\ isSome (programManager (this m)) = true
      /\ isSome (collidePass (this m)) = true)
  /\ collideMap (this m) = option_map pass_collideMap (collidePass (this m)).
Proof.
  intros Hr. destruct (reachable_wf m Hr) as (Hmap & Hres & Hold & _).
  split; [exact Hold | split; [| exact Hmap]].
  intros Hh. destruct (Hres Hh) as (Hd & Hp). split; [exact Hd | split; [| exact Hp]].
  clear Hmap Hres Hold Hd Hp. induction Hr as [n | gl o m Hr IH | m Hr IH].
  - discriminate.
  - destruct (collideLayersOf o) eqn:E.
    + unfold state_after in Hh. rewrite (preRender_empty gl o m E) in Hh.
      destruct (dummyCollideMap (this m)); discriminate.
    + apply preRender_nonempty_resources. congruence.
  - unfold state_after in Hh. rewrite cleanup_run in Hh. discriminate.
Qed.

End Properties.

#[export] Existing Instance map_host.

Import Scenario.

(** Scenario A of the specification: a frame without collision layers
    exposes the dummy and renders nothing; the frame on which two
    collision layers appear renders once; the same frame again renders
    nothing and keeps [haveCollideLayers]. *)
Example scenario_A :
  let m1 := state_after (preRender canvas_800x600 no_collide_layers) new_effect in
  let m2 := state_after (preRender canvas_800x600 two_layers) m1 in
  let m3 := state_after (preRender canvas_800x600 two_layers) m2 in
  count_render (events_of (preRender canvas_800x600 no_collide_layers) new_effect) = 0
  /\ param_collideMap (getModuleParameters (this m1)) = dummyCollideMap (this m1)
  /\ count_render (events_of (preRender canvas_800x600 two_layers) m1) = 1
  /\ param_haveCollideLayers (getModuleParameters (this m2)) = true
  /\ count_render (events_of (preRender canvas_800x600 two_layers) m2) = 0
  /\ param_haveCollideLayers (getModuleParameters (this m3)) = true.
Proof. vm_compute. repeat split. Qed.

(** ** The properties on concrete frames *)

(** C1, as stated, fails: a newly constructed effect, and an effect
    after [cleanup], expose an undefined [collideMap]. *)
Lemma C1_unprovisioned_effect_exposes_undefined :
  (reachable new_effect /\ param_collideMap (getModuleParameters (this new_effect)) = None)
  /\ (reachable after_teardown /\ param_collideMap (getModuleParameters (this after_teardown)) = None).
Proof.
  split; split; try reflexivity.
  - apply reachable_new.
  - apply reachable_cleanup, reachable_preRender, reachable_preRender, reachable_new.
Qed.

Lemma C1_after_frame_witness :
  reachable after_first_frame
  /\ (let e' := this (state_after (preRender canvas_800x600 two_layers_zoomed)
                                  after_first_frame) in
      haveCollideLayers e' = true
      /\ param_collideMap (getModuleParameters e') = Some {| tex_ref := 102 |}
      /\ option_map pass_collideMap (collidePass e') = Some {| tex_ref := 102 |})
  /\ (let e' := this (state_after (preRender canvas_1600x1200 no_collide_layers)
                                  after_first_frame) in
      haveCollideLayers e' = false
      /\ param_collideMap (getModuleParameters e') = Some {| tex_ref := 100 |}
      /\ dummyCollideMap e' = Some {| tex_ref := 100 |})
  /\ param_collideMap
       (getModuleParameters (this (state_after cleanup after_first_frame))) = None.
Proof.
  assert (H : reachable after_first_frame)
    by (apply reachable_preRender, reachable_new).
  split; [exact H |]. split; [| split].
  - destruct (C1_exposed_collideMap_after_frame canvas_800x600 two_layers_zoomed
                after_first_frame H) as ((t & Ht & Hreal & _) & _).
    assert (Et : Some t = Some {| tex_ref := 102 |})
      by (rewrite <- Ht; reflexivity).
    cbn zeta. split; [reflexivity |].
    rewrite Ht, (Hreal eq_refl). split; exact Et.
  - destruct (C1_exposed_collideMap_after_frame canvas_1600x1200 no_collide_layers
                after_first_frame H) as ((t & Ht & _ & Hdummy) & _).
    assert (Et : Some t = Some {| tex_ref := 100 |})
      by (rewrite <- Ht; reflexivity).
    cbn zeta. split; [reflexivity |].
    rewrite Ht, (Hdummy eq_refl). split; exact Et.
  - exact (proj2 (proj2 (C1_exposed_collideMap_after_frame canvas_800x600
                           two_layers after_first_frame H))).
Defined.

(** C2, as stated, fails on identical frames without collision layers:
    the first call does not render.  It also fails when no viewport is
    given (both calls render) and when the effect has rendered these
    inputs already (neither call renders). *)
Lemma C2_identical_frames_counterexample :
  ~ renders_once_then_never
      canvas_800x600 no_collide_layers new_effect
  /\ ~ renders_once_then_never
         canvas_800x600 (options [layerA; layerB] []) new_effect
  /\ ~ renders_once_then_never
         canvas_800x600 two_layers after_first_frame.
Proof.
  unfold renders_once_then_never. vm_compute.
  repeat split; intros [H1 H2]; discriminate.
Qed.

Lemma C2_identical_frames_witness :
  collideLayersOf two_layers <> []
  /\ nth_error (viewports two_layers) 0 = Some viewport_z10
  /\ equals_by_value viewport_z10 (Some viewport_z10) = true
  /\ (oldRenderInfo (this new_effect) = None
      /\ renders_once_then_never canvas_800x600 two_layers new_effect)
  /\ (isSome (oldRenderInfo (this after_first_frame)) = true
      /\ frame_renders after_first_frame two_layers_moved = true
      /\ renders_once_then_never canvas_800x600 two_layers_moved after_first_frame)
  /\ (frame_renders after_first_frame two_layers_zoomed = true
      /\ renders_once_then_never canvas_800x600 two_layers_zoomed after_first_frame).
Proof.
  assert (Hne : collideLayersOf two_layers <> []) by (vm_compute; discriminate).
  assert (Hmoved : collideLayersOf two_layers_moved <> [])
    by (vm_compute; discriminate).
  assert (Hzoomed : collideLayersOf two_layers_zoomed <> [])
    by (vm_compute; discriminate).
  split; [exact Hne | split; [reflexivity | split; [reflexivity |]]].
  split; [| split].
  - split; [reflexivity |].
    exact (C2_identical_frames_render_once canvas_800x600 two_layers new_effect
             viewport_z10 Hne eq_refl eq_refl eq_refl).
  - split; [reflexivity | split; [reflexivity |]].
    exact (C2_identical_frames_render_once canvas_800x600 two_layers_moved
             after_first_frame viewport_z10 Hmoved eq_refl eq_refl eq_refl).
  - split; [reflexivity |].
    exact (C2_identical_frames_render_once canvas_800x600 two_layers_zoomed
             after_first_frame viewport_z11 Hzoomed eq_refl eq_refl eq_refl).
Defined.

Lemma C3_change_detection_witness :
  (lastViewport (this after_first_frame) = Some viewport_z10
   /\ equals_by_value viewport_z10 (nth_error (viewports two_layers_zoomed) 0) = false
   /\ count_render (events_of (preRender canvas_800x600 two_layers_zoomed) after_first_frame) = 1)
  /\ (option_map layerBounds (oldRenderInfo (this after_first_frame))
      = Some [Some 10; Some 11]
      /\ nth_error (map getBounds (collideLayersOf two_layers_moved)) 0 = Some (Some 12)
      /\ count_render (events_of (preRender canvas_800x600 two_layers_moved) after_first_frame) = 1).
Proof.
  split.
  - split; [reflexivity | split; [reflexivity |]].
    refine (proj1 (C3_change_detection_conservative 
                     canvas_800x600 two_layers_zoomed after_first_frame _)
              viewport_z10 eq_refl eq_refl).
    vm_compute; discriminate.
  - split; [reflexivity | split; [reflexivity |]].
    refine (proj2 (C3_change_detection_conservative 
                     canvas_800x600 two_layers_moved after_first_frame _)
              (frame_renderInfo new_effect two_layers) 0 (Some 12) eq_refl eq_refl _).
    + vm_compute; discriminate.
    + vm_compute; discriminate.
Defined.

Lemma C4_first_appearance_witness :
  collideLayersOf two_layers <> []
  /\ collideLayersOf no_collide_layers = []
  /\ count_render (events_of (preRender canvas_800x600 two_layers) after_empty_frame) = 1
  /\ count_render (events_of (preRender canvas_800x600 two_layers) new_effect) = 1.
Proof.
  assert (Hne : collideLayersOf two_layers <> []) by (vm_compute; discriminate).
  split; [exact Hne | split; [reflexivity | split]].
  - apply (C4_first_appearance_forces_render 
             canvas_800x600 two_layers after_empty_frame Hne).
    right. exists canvas_1600x1200, no_collide_layers, after_first_frame.
    split; reflexivity.
  - apply (C4_first_appearance_forces_render 
             canvas_800x600 two_layers new_effect Hne).
    left. reflexivity.
Defined.

Lemma C5_empty_frame_witness :
  collideLayersOf no_collide_layers = []
  /\ haveCollideLayers (this after_first_frame) = true
  /\ haveCollideLayers (this after_empty_frame) = false
  /\ oldRenderInfo (this after_empty_frame) = None
  /\ param_collideMap (getModuleParameters (this after_empty_frame)) = dummyCollideMap (this after_empty_frame)
  /\ lastViewport (this after_empty_frame) = Some viewport_z10.
Proof.
  pose proof (C5_empty_frame 
                canvas_1600x1200 no_collide_layers after_first_frame eq_refl)
    as (Hh & Hold & (t & Hd & Hp) & _ & Hlv).
  split; [reflexivity | split; [reflexivity |]].
  split; [exact Hh | split; [exact Hold | split]].
  - unfold after_empty_frame. rewrite Hp, Hd. reflexivity.
  - unfold after_empty_frame. rewrite Hlv. reflexivity.
Defined.

(** C6, as stated, fails: on a frame without collision layers the pass
    provisioned earlier is not resized.  The canvas grows from 800x600
    to 1600x1200 and the framebuffer keeps the size 400x300. *)
Lemma C6_empty_frame_skips_resize :
  isSome (collidePass (this after_first_frame)) = true
  /\ count_resize (events_of (preRender canvas_1600x1200 no_collide_layers)
                             after_first_frame) = 0
  /\ option_map fbo_size (collidePass (this after_empty_frame))
     = Some (Some ((inject_Z 800 / DOWNSCALE)%Q, (inject_Z 600 / DOWNSCALE)%Q))
  /\ ~ (inject_Z 800 / DOWNSCALE == inject_Z (canvas_width canvas_1600x1200) / DOWNSCALE)%Q.
Proof.
  split; [reflexivity | split; [reflexivity | split; [reflexivity |]]].
  vm_compute. discriminate.
Qed.

Lemma C6_resize_witness :
  collideLayersOf two_layers <> []
  /\ count_render (events_of (preRender canvas_1600x1200 two_layers) after_first_frame) = 0
  /\ (exists p,
        collidePass (this (state_after (preRender canvas_1600x1200 two_layers)
                                       after_first_frame)) = Some p
        /\ fbo_size p = Some ((inject_Z 1600 / DOWNSCALE)%Q, (inject_Z 1200 / DOWNSCALE)%Q)
        /\ filter is_resize (events_of (preRender canvas_1600x1200 two_layers)
                                       after_first_frame)
           = [FboResize (pass_ref p) (inject_Z 1600 / DOWNSCALE)%Q
                        (inject_Z 1200 / DOWNSCALE)%Q])
  /\ collideLayersOf no_collide_layers = []
  /\ collidePass (this after_empty_frame) = collidePass (this after_first_frame)
  /\ count_resize (events_of (preRender canvas_1600x1200 no_collide_layers)
                             after_first_frame) = 0.
Proof.
  assert (Hne : collideLayersOf two_layers <> []) by (vm_compute; discriminate).
  split; [exact Hne | split; [reflexivity | split]].
  - exact (proj2 (proj2 (proj1 (C6_resize_on_collide_frames canvas_1600x1200
                                  two_layers after_first_frame) Hne))).
  - split; [reflexivity |].
    exact (proj2 (C6_resize_on_collide_frames canvas_1600x1200 no_collide_layers
                    after_first_frame) eq_refl).
Defined.

(** C7.  The code at the failing input: a frame with collision layers
    registers the [collide] module, a frame without collision layers
    follows, then [cleanup].  The teardown deletes the dummy texture
    and the pass but makes no [removeDefaultModule] call and leaves
    [programManager] set, so the effect is not back in its initial
    state and the one registration made is never released. *)
Lemma C7_teardown_keeps_programManager :
  reachable after_empty_frame
  /\ count is_add_module (events_of (preRender canvas_800x600 two_layers) new_effect) = 1
  /\ count is_add_module (events_of (preRender canvas_1600x1200 no_collide_layers)
                                    after_first_frame) = 0
  /\ events_of cleanup after_empty_frame
     = [TextureDelete {| tex_ref := 100 |}; PassDelete 101]
  /\ count is_remove_module (events_of cleanup after_empty_frame) = 0
  /\ programManager (this after_teardown) = Some {| pm_gl := 0 |}
  /\ this after_teardown <> initial.
Proof.
  split; [apply reachable_preRender, reachable_preRender, reachable_new |].
  repeat (split; [reflexivity |]).
  vm_compute. discriminate.
Qed.

(** Torn down while collision layers are flagged, the effect is back
    in its initial state. *)
Example cleanup_after_collide_frame :
  reachable after_first_frame
  /\ haveCollideLayers (this after_first_frame) = true
  /\ this (state_after cleanup after_first_frame) = initial
  /\ cleanup (state_after cleanup after_first_frame)
     = (Normal tt, state_after cleanup after_first_frame, []).
Proof.
  assert (H : reachable after_first_frame)
    by (apply reachable_preRender, reachable_new).
  pose proof (cleanup_resets after_first_frame H)
    as (_ & Hidem & _ & Hinit & _).
  split; [exact H | split; [reflexivity | split]].
  - exact (Hinit eq_refl).
  - exact Hidem.
Qed.

(** C8, as stated, fails: a frame without collision layers returns
    before [_debug], also when the mask exists. *)
Lemma C8_empty_frame_skips_debug :
  count_debug (events_of (preRender canvas_800x600 no_collide_layers) new_effect) = 0
  /\ isSome (collideMap (this after_first_frame)) = true
  /\ count_debug (events_of (preRender canvas_1600x1200 no_collide_layers)
                            after_first_frame) = 0.
Proof. repeat split. Qed.

Lemma C8_debug_witness :
  reachable after_first_frame
  /\ collideLayersOf two_layers <> []
  /\ count_render (events_of (preRender canvas_800x600 two_layers) after_first_frame) = 0
  /\ count_debug (events_of (preRender canvas_800x600 two_layers) after_first_frame) = 1
  /\ count_render (events_of (preRender canvas_800x600 two_layers_zoomed)
                             after_first_frame) = 1
  /\ count_debug (events_of (preRender canvas_800x600 two_layers_zoomed)
                            after_first_frame) = 1
  /\ collideLayersOf no_collide_layers = []
  /\ count_debug (events_of (preRender canvas_800x600 no_collide_layers)
                            after_first_frame) = 0.
Proof.
  assert (H : reachable after_first_frame)
    by (apply reachable_preRender, reachable_new).
  assert (Hne : collideLayersOf two_layers <> []) by (vm_compute; discriminate).
  assert (Hzoomed : collideLayersOf two_layers_zoomed <> [])
    by (vm_compute; discriminate).
  split; [exact H | split; [exact Hne | split; [reflexivity | split]]].
  - exact (proj1 (proj1 (C8_debug_on_collide_frames canvas_800x600 two_layers
                           after_first_frame H) Hne)).
  - split; [reflexivity | split].
    + exact (proj1 (proj1 (C8_debug_on_collide_frames canvas_800x600
                             two_layers_zoomed after_first_frame H) Hzoomed)).
    + split; [reflexivity |].
      exact (proj2 (C8_debug_on_collide_frames canvas_800x600 no_collide_layers
                      after_first_frame H) eq_refl).
Defined.

Lemma C9_skipped_frame_witness :
  collideLayersOf two_layers <> []
  /\ frame_renders after_first_frame two_layers = false
  /\ count_render (events_of (preRender canvas_800x600 two_layers) after_first_frame) = 0
  /\ oldRenderInfo (this (state_after (preRender canvas_800x600 two_layers) after_first_frame))
     = Some {| ri_ref := 104;
               layers := [layerA; layerB];
               layerBounds := [Some 10; Some 11] |}.
Proof.
  assert (Hne : collideLayersOf two_layers <> []) by (vm_compute; discriminate).
  pose proof (C9_skipped_frame_updates_oldRenderInfo 
                canvas_800x600 two_layers after_first_frame Hne eq_refl)
    as (Hskip & Hold).
  split; [exact Hne | split; [reflexivity | split]].
  - exact Hskip.
  - rewrite Hold. reflexivity.
Defined.

Lemma C10_filter_witness :
  ~ In hiddenLayer
       (rendered_layers (events_of (preRender canvas_800x600
                                      (options [hiddenLayer; layerA] [viewport_z10]))
                                   new_effect))
  /\ rendered_layers (events_of (preRender canvas_800x600
                                   (options [hiddenLayer; layerA] [viewport_z10]))
                                new_effect) = [layerA].
Proof.
  split; [| reflexivity].
  intros Hin.
  destruct (proj1 (proj2 (C10_collision_layer_filter 
                            canvas_800x600
                            (options [hiddenLayer; layerA] [viewport_z10])
                            new_effect))
              hiddenLayer Hin) as (_ & Hvisible & _).
  discriminate Hvisible.
Defined.

(** * The debug overlay *)

Module OverlayFacts.
Import Overlay.

Lemma length_write a : forall i v, List.length (write a i v) = List.length a.
Proof. induction a as [|x a IH]; intros [|i] v; cbn; auto. Qed.

(** Writing the values [vs] at consecutive indices replaces the stretch
    of the array they cover. *)
Lemma fill_consecutive vs : forall before mid after,
  List.length mid = List.length vs ->
  fold_left (fun a iv => write a (fst iv) (snd iv))
            (combine (seq (List.length before) (List.length vs)) vs)
            (before ++ mid ++ after)
  = before ++ vs ++ after.
Proof.
  induction vs as [|v vs IH]; intros before mid after Hlen.
  - destruct mid; [reflexivity | discriminate].
  - destruct mid as [|x mid]; [discriminate|].
    cbn [List.length seq combine fold_left fst snd].
    assert (Hw : write (before ++ (x :: mid) ++ after) (List.length before) v
                 = (before ++ [v]) ++ mid ++ after).
    { clear. induction before as [|b before IHb]; cbn; [reflexivity|].
      f_equal. exact IHb. }
    rewrite Hw.
    replace (S (List.length before)) with (List.length (before ++ [v]))
      by (rewrite length_app; cbn; lia).
    rewrite IH by (cbn in Hlen; lia).
    now rewrite <- app_assoc.
Qed.

Lemma combine_fst_snd {A B} (l : list (A * B)) : combine (map fst l) (map snd l) = l.
Proof. induction l as [|[a b] l IH]; cbn; congruence. Qed.

Lemma fold_left_flat_map {A B C} (f : A -> B -> A) (g : C -> list B) l : forall a,
  fold_left f (flat_map g l) a = fold_left (fun a x => fold_left f (g x) a) l a.
Proof.
  induction l as [|x l IH]; intros a; cbn; [reflexivity|].
  now rewrite fold_left_app, IH.
Qed.

(** In a concatenation of blocks of one length, the element at
    [i * c + k] is element [k] of block [i]. *)
Lemma nth_error_flat_map_blocks {A B} (g : A -> list B) c l : forall i k a,
  (forall x, List.length (g x) = c) ->
  nth_error l i = Some a ->
  k < c ->
  nth_error (flat_map g l) (i * c + k) = nth_error (g a) k.
Proof.
  induction l as [|x l IH]; intros i k a Hc Hi Hk.
  - destruct i; discriminate.
  - destruct i as [|i]; cbn [flat_map].
    + inversion Hi; subst. cbn. rewrite nth_error_app1; [reflexivity|].
      rewrite Hc. exact Hk.
    + rewrite nth_error_app2 by (rewrite Hc; cbn; lia).
      rewrite Hc. replace (S i * c + k - c) with (i * c + k) by (cbn; lia).
      now apply IH.
Qed.


Lemma fold_left_ext {A B} (f g : A -> B -> A) l :
  (forall a x, f a x = g a x) -> forall a, fold_left f l a = fold_left g l a.
Proof.
  intros Hfg. induction l as [|x l IH]; intros a; cbn; [reflexivity|].
  now rewrite Hfg, IH.
Qed.

Lemma draw_minimap_writes color w h data :
  draw_minimap color w h data = fold_left write_pair (minimap_writes color w h) data.
Proof.
  unfold draw_minimap, minimap_writes, row_writes.
  rewrite fold_left_flat_map. apply fold_left_ext. intros a y.
  rewrite fold_left_flat_map. apply fold_left_ext. intros a' x. reflexivity.
Qed.

Lemma pixel_writes_indices color w y : forall n x0,
  map fst (flat_map (fun x => pixel_writes color w x y) (seq x0 n))
  = seq (4 * (x0 + y * w)) (4 * n).
Proof.
  induction n as [|n IH]; intros x0; [reflexivity|].
  cbn [seq flat_map]. rewrite map_app, IH.
  replace (4 * S n) with (4 + 4 * n) by lia. rewrite seq_app.
  f_equal.
  - unfold pixel_writes. cbn [map fst]. generalize (4 * (x0 + y * w)). intros d.
    replace (d + 0) with d by lia. replace (d + 1) with (S d) by lia.
    replace (d + 2) with (S (S d)) by lia. replace (d + 3) with (S (S (S d))) by lia.
    reflexivity.
  - f_equal. lia.
Qed.

Lemma row_writes_length color w y : List.length (row_writes color w y) = 4 * w.
Proof.
  unfold row_writes.
  rewrite <- (length_map fst), pixel_writes_indices. apply length_seq.
Qed.

Lemma minimap_writes_indices color w : forall n y0,
  map fst (flat_map (row_writes color w) (seq y0 n)) = seq (4 * (y0 * w)) (4 * w * n).
Proof.
  induction n as [|n IH]; intros y0.
  - now rewrite Nat.mul_0_r.
  - cbn [seq flat_map]. rewrite map_app, IH.
    unfold row_writes at 1. rewrite pixel_writes_indices.
    replace (4 * w * S n) with (4 * w + 4 * w * n) by lia. rewrite seq_app.
    f_equal. f_equal. cbn. lia.
Qed.

(** The minimap loops fill the whole image, in index order. *)
Lemma draw_minimap_fills color w h data :
  List.length data = 4 * w * h ->
  draw_minimap color w h data = map snd (minimap_writes color w h).
Proof.
  intros Hlen. rewrite draw_minimap_writes.
  pose proof (minimap_writes_indices color w h 0) as Hidx.
  fold (minimap_writes color w h) in Hidx.
  rewrite Nat.mul_0_l, Nat.mul_0_r in Hidx.
  assert (Hl : List.length (map snd (minimap_writes color w h)) = 4 * w * h).
  { rewrite length_map, <- (length_map fst), Hidx. apply length_seq. }
  rewrite <- (combine_fst_snd (minimap_writes color w h)) at 1.
  rewrite Hidx, <- Hl.
  pose proof (fill_consecutive (map snd (minimap_writes color w h)) [] data []) as F.
  cbn [List.length app] in F. rewrite !app_nil_r in F.
  apply F. lia.
Qed.

Lemma minimap_writes_at color w h x y k :
  x < w -> y < h -> k < 4 ->
  nth_error (map snd (minimap_writes color w h)) (4 * (x + y * w) + k)
  = Some (stored (nth_error color (4 * (x / zoom + y / zoom * w) + k))).
Proof.
  intros Hx Hy Hk. rewrite nth_error_map.
  replace (4 * (x + y * w) + k) with (y * (4 * w) + (x * 4 + k)) by lia.
  unfold minimap_writes.
  rewrite (nth_error_flat_map_blocks (row_writes color w) (4 * w) (seq 0 h) y (x * 4 + k) y).
  - unfold row_writes.
    rewrite (nth_error_flat_map_blocks (fun x => pixel_writes color w x y) 4 (seq 0 w) x k x).
    + destruct k as [|[|[|[|k]]]]; try lia; reflexivity.
    + reflexivity.
    + rewrite nth_error_seq. destruct (Nat.ltb_spec x w); [reflexivity | lia].
    + exact Hk.
  - apply row_writes_length.
  - rewrite nth_error_seq. destruct (Nat.ltb_spec y h); [reflexivity | lia].
  - lia.
Qed.


Lemma draw_full_map_writes color offset data :
  draw_full_map color offset data
  = fold_left write_pair
      (full_map_writes color offset
         (map (fun n => 4 * n) (seq 0 ((List.length color + 3) / 4))))
      data.
Proof.
  unfold draw_full_map, full_map_writes.
  rewrite fold_left_flat_map. apply fold_left_ext. reflexivity.
Qed.

Lemma full_map_writes_split color offset : forall n n0,
  full_map_writes color offset (map (fun n => 4 * n) (seq n0 n))
  = combine (seq (offset + 4 * n0) (4 * n))
            (map (fun j => stored (nth_error color j)) (seq (4 * n0) (4 * n))).
Proof.
  induction n as [|n IH]; intros n0; [reflexivity|].
  cbn [seq map]. unfold full_map_writes in *. cbn [flat_map]. rewrite IH.
  replace (4 * S n) with (S (S (S (S (4 * n))))) by lia.
  replace (offset + 4 * S n0) with (S (S (S (S (offset + 4 * n0))))) by lia.
  replace (4 * S n0) with (S (S (S (S (4 * n0))))) by lia.
  cbn [seq map combine app].
  generalize (4 * n0). intros i.
  replace (offset + i + 0) with (offset + i) by lia.
  replace (offset + i + 1) with (S (offset + i)) by lia.
  replace (offset + i + 2) with (S (S (offset + i))) by lia.
  replace (offset + i + 3) with (S (S (S (offset + i)))) by lia.
  replace (i + 0) with i by lia. replace (i + 1) with (S i) by lia.
  replace (i + 2) with (S (S i)) by lia. replace (i + 3) with (S (S (S i))) by lia.
  reflexivity.
Qed.

Lemma stored_reads (color : list Z) :
  map (fun j => stored (nth_error color j)) (seq 0 (List.length color))
  = map clamp color.
Proof.
  induction color as [|c color IH]; [reflexivity|].
  cbn [List.length seq map nth_error stored]. f_equal.
  rewrite <- seq_shift, map_map. exact IH.
Qed.

(** The image of an overlay of the size [_debug] gives it, for a
    read-back of the size of the mask: the upper half of the minimap
    stores, then the read-back itself. *)
Lemma compose_halves color w h :
  List.length color = 4 * w * h ->
  compose color w (2 * h)
  = firstn (4 * w * h) (map snd (minimap_writes color w (2 * h)))
    ++ map clamp color.
Proof.
  intros Hlen. unfold compose, minimap.
  rewrite draw_minimap_fills by (rewrite repeat_length; lia).
  rewrite draw_full_map_writes.
  replace ((List.length color + 3) / 4) with (w * h)
    by (rewrite Hlen; apply Nat.div_unique with 3; lia).
  rewrite (full_map_writes_split color (List.length color) (w * h) 0).
  rewrite Nat.mul_0_r, Nat.add_0_r.
  replace (4 * (w * h)) with (List.length color) by lia.
  rewrite stored_reads.
  set (mv := map snd (minimap_writes color w (2 * h))).
  assert (Hmv : List.length mv = 2 * List.length color).
  { unfold mv. rewrite length_map, <- (length_map fst).
    pose proof (minimap_writes_indices color w (2 * h) 0) as Hidx.
    fold (minimap_writes color w (2 * h)) in Hidx. rewrite Hidx, length_seq. lia. }
  rewrite <- (firstn_skipn (List.length color) mv) at 1.
  pose proof (fill_consecutive (map clamp color)
                (firstn (List.length color) mv) (skipn (List.length color) mv) [])
    as F.
  rewrite !app_nil_r in F.
  rewrite length_map, length_firstn, Nat.min_l in F by lia.
  unfold write_pair. rewrite F by (rewrite length_skipn; lia).
  now rewrite Hlen.
Qed.

Lemma source_in_range w h x y k :
  x < w -> y < 2 * h -> k < 4 ->
  4 * (x / zoom + y / zoom * w) + k < 4 * w * h.
Proof.
  intros Hx Hy Hk. unfold zoom.
  assert (x / 8 <= x) by (apply Nat.Div0.div_le_upper_bound; lia).
  assert (y / 8 < h) by (apply Nat.Div0.div_lt_upper_bound; lia).
  nia.
Qed.


Lemma clamp_is_byte v : is_byte (clamp v).
Proof. unfold is_byte, clamp. lia. Qed.

Lemma clamp_byte v : is_byte v -> clamp v = v.
Proof. unfold is_byte, clamp. lia. Qed.

Lemma stored_is_byte read : is_byte (stored read).
Proof. destruct read; [apply clamp_is_byte | unfold is_byte; cbn; lia]. Qed.

Lemma is_image_store n data i read : is_image n data -> is_image n (store data i read).
Proof.
  intros (Hlen & Hall). unfold store. fold (stored read). split.
  - now rewrite length_write.
  - clear Hlen. revert i. induction Hall as [|x a Hx Ha IH]; intros [|i]; cbn;
      constructor; auto using stored_is_byte.
Qed.

Lemma fold_left_keeps {A B} (P : A -> Prop) (f : A -> B -> A) l :
  (forall a x, P a -> P (f a x)) -> forall a, P a -> P (fold_left f l a).
Proof.
  intros Hf. induction l as [|x l IH]; intros a Ha; cbn; auto.
Qed.

Lemma is_image_compose color w h : is_image (4 * w * h) (compose color w h).
Proof.
  unfold compose, minimap, draw_full_map, draw_minimap.
  apply fold_left_keeps.
  { intros a i Ha. unfold full_map_pixel. now repeat apply is_image_store. }
  apply fold_left_keeps.
  { intros a y Ha. apply fold_left_keeps; [|assumption].
    intros a' x Ha'. unfold minimap_pixel. now repeat apply is_image_store. }
  split; [apply repeat_length|].
  apply Forall_forall. intros v Hv. apply repeat_spec in Hv. subst.
  unfold is_byte. lia.
Qed.

Lemma to_unsigned_long_whole n v : whole n v -> to_unsigned_long v = n.
Proof.
  unfold whole, to_unsigned_long. intros Hv.
  rewrite (Qfloor_comp _ _ Hv), Qfloor_Z. apply Nat2Z.id.
Qed.

Lemma differs_false n v : differs n v = false -> whole n v.
Proof.
  unfold differs, whole. intros Hd. apply negb_false_iff, Qeq_bool_eq in Hd.
  now symmetry.
Qed.

Lemma differs_whole n v : whole n v -> differs n v = false.
Proof.
  unfold differs, whole. intros Hv. apply negb_false_iff, Qeq_eq_bool.
  now symmetry.
Qed.

Lemma whole_double h v : whole h v -> whole (2 * h) (2 * v)%Q.
Proof.
  unfold whole. intros ->. rewrite Nat2Z.inj_mul, inject_Z_mult. reflexivity.
Qed.

(** The canvas [_debug] draws on has the size of the overlay with the
    fractions dropped, whether it was resized or had that size
    already. *)
Lemma sized_canvas (w h : Q) (c : Canvas) :
  let c' := if differs (width c) w || differs (height c) h
            then resized_to w h c else c in
  width c' = to_unsigned_long w /\ height c' = to_unsigned_long h.
Proof.
  cbn zeta.
  destruct (differs (width c) w) eqn:Ew, (differs (height c) h) eqn:Eh; cbn; auto.
  apply differs_false in Ew, Eh.
  now rewrite (to_unsigned_long_whole _ _ Ew), (to_unsigned_long_whole _ _ Eh).
Qed.

(** What [_debug] leaves when it draws: the canvas it found or made,
    resized if its size differed, with the composed image. *)
Lemma _debug_draws blank mask color document :
  let w := to_unsigned_long (mask_width mask) in
  let h := to_unsigned_long (2 * mask_height mask) in
  0 < w -> 0 < h ->
  exists c,
    _debug blank (Some mask) (Some color) document = (Some c, None)
    /\ width c = w
    /\ height c = h
    /\ image c = compose color w h.
Proof.
  cbn zeta. intros Hw Hh. unfold _debug, minimap.
  set (c0 := match document with Some c => c | None => created blank end).
  destruct (sized_canvas (mask_width mask) (2 * mask_height mask) c0) as (Ew & Eh).
  set (c1 := if differs (width c0) (mask_width mask)
                || differs (height c0) (2 * mask_height mask)
             then resized_to (mask_width mask) (2 * mask_height mask) c0 else c0) in *.
  clearbody c1. rewrite Ew, Eh.
  destruct (Nat.eqb_spec (to_unsigned_long (mask_width mask)) 0); [lia|].
  destruct (Nat.eqb_spec (to_unsigned_long (2 * mask_height mask)) 0); [lia|].
  cbn [orb]. eexists. split; [reflexivity|].
  repeat split; assumption.
Qed.

Lemma skipn_compose color w h :
  List.length color = 4 * w * h ->
  skipn (4 * w * h) (compose color w (2 * h)) = map clamp color.
Proof.
  intros Hlen. rewrite (compose_halves _ _ _ Hlen), skipn_app.
  assert (Hf : List.length
                 (firstn (4 * w * h) (map snd (minimap_writes color w (2 * h))))
               = 4 * w * h).
  { rewrite length_firstn, length_map, <- (length_map fst).
    pose proof (minimap_writes_indices color w (2 * h) 0) as Hidx.
    fold (minimap_writes color w (2 * h)) in Hidx.
    rewrite Hidx, length_seq. lia. }
  rewrite skipn_all2 by lia. rewrite Hf, Nat.sub_diag. reflexivity.
Qed.

(** X6.  For a mask whose width [w] and height [h] are whole and
    positive and a read-back of four numbers per pixel, [_debug] raises
    nothing and leaves a canvas [w] wide and [2 * h] high, whose image
    has four bytes per canvas pixel; the second half of the image is
    the read-back, number for number (clamped to a byte, so unchanged
    when the read-back holds bytes). *)
Theorem X6_overlay_shows_full_mask blank mask color document w h :
  whole w (mask_width mask) ->
  whole h (mask_height mask) ->
  0 < w ->
  0 < h ->
  List.length color = 4 * w * h ->
  exists c,
    _debug blank (Some mask) (Some color) document = (Some c, None)
    /\ width c = w
    /\ height c = 2 * h
    /\ List.length (image c) = 4 * width c * height c
    /\ skipn (4 * w * h) (image c) = map clamp color
    /\ (Forall is_byte color -> skipn (4 * w * h) (image c) = color).
Proof.
  intros Hw Hh Pw Ph Hlen.
  pose proof (to_unsigned_long_whole _ _ Hw) as Ew.
  pose proof (to_unsigned_long_whole _ _ (whole_double _ _ Hh)) as Eh.
  destruct (_debug_draws blank mask color document) as (c & Hc & Wc & Hgt & Ic);
    [lia | lia |].
  rewrite Ew, Eh in *.
  exists c. split; [exact Hc | split; [exact Wc | split; [exact Hgt |]]].
  rewrite Ic, Wc, Hgt.
  split; [apply is_image_compose | split].
  - now apply skipn_compose.
  - intros Hbytes. rewrite skipn_compose by assumption.
    clear - Hbytes. induction Hbytes as [|v l Hv Hl IH]; cbn; [reflexivity|].
    now rewrite IH, clamp_byte.
Qed.

(** X7.  Under the same conditions the first half of the image is the
    minimap: the pixel at column [x] and row [y] of the canvas, for
    [y] below the height of the mask, is the pixel of the read-back at
    column [x / 8] and row [y / 8]; the source index lies inside the
    read-back. *)
Theorem X7_overlay_minimap_pixel blank mask color document w h x y k :
  whole w (mask_width mask) ->
  whole h (mask_height mask) ->
  List.length color = 4 * w * h ->
  x < w ->
  y < h ->
  k < 4 ->
  exists c v,
    _debug blank (Some mask) (Some color) document = (Some c, None)
    /\ nth_error color (4 * (x / 8 + y / 8 * w) + k) = Some v
    /\ nth_error (image c) (4 * (x + y * w) + k) = Some (clamp v).
Proof.
  intros Hw Hh Hlen Hx Hy Hk.
  pose proof (to_unsigned_long_whole _ _ Hw) as Ew.
  pose proof (to_unsigned_long_whole _ _ (whole_double _ _ Hh)) as Eh.
  destruct (_debug_draws blank mask color document) as (c & Hc & Wc & Hgt & Ic);
    [lia | lia |].
  rewrite Ew, Eh in *.
  pose proof (source_in_range w h x y k Hx ltac:(lia) Hk) as Hsrc.
  unfold zoom in Hsrc. rewrite <- Hlen in Hsrc.
  destruct (nth_error color (4 * (x / 8 + y / 8 * w) + k)) as [v|] eqn:Ev;
    [| apply nth_error_None in Ev; lia].
  exists c, v. split; [exact Hc | split; [reflexivity |]].
  rewrite Ic, (compose_halves _ _ _ Hlen).
  rewrite nth_error_app1.
  - rewrite nth_error_firstn.
    destruct (Nat.ltb_spec (4 * (x + y * w) + k) (4 * w * h)); [|nia].
    rewrite minimap_writes_at by lia. unfold zoom. now rewrite Ev.
  - rewrite length_firstn, length_map, <- (length_map fst).
    pose proof (minimap_writes_indices color w (2 * h) 0) as Hidx.
    fold (minimap_writes color w (2 * h)) in Hidx.
    rewrite Hidx, length_seq. nia.
Qed.

(** X8.  Drawing the overlay twice for the same mask and read-back is
    drawing it once: the second call leaves the document and the
    outcome of the first.  And a canvas found with the size of a
    whole-sized mask is neither made anew, resized nor restyled: it
    keeps its id, its style and its size, and only its image is
    replaced. *)
Theorem X8_overlay_idempotent blank collideMap readback document :
  _debug blank collideMap readback (fst (_debug blank collideMap readback document))
  = _debug blank collideMap readback document
  /\ (forall mask color c,
         collideMap = Some mask ->
         readback = Some color ->
         document = Some c ->
         whole (width c) (mask_width mask) ->
         whole (height c) (2 * mask_height mask)%Q ->
         0 < width c ->
         0 < height c ->
         _debug blank collideMap readback document
         = (Some (putImageData (compose color (width c) (height c)) c), None)).
Proof.
  split.
  - destruct readback as [color|]; [|reflexivity].
    destruct collideMap as [mask|]; [|reflexivity].
    unfold _debug.
    set (c0 := match document with Some c => c | None => created blank end).
    set (ch := ((if minimap then 2 else 1) * mask_height mask)%Q).
    destruct (sized_canvas (mask_width mask) ch c0) as (Ew & Eh).
    assert (Hre : forall d,
               (if differs (width c0) (mask_width mask) || differs (height c0) ch
                then resized_to (mask_width mask) ch c0 else c0)
               = c0
               \/ resized_to (mask_width mask) ch
                    (putImageData d
                       (if differs (width c0) (mask_width mask)
                           || differs (height c0) ch
                        then resized_to (mask_width mask) ch c0 else c0))
                  = putImageData d
                      (if differs (width c0) (mask_width mask)
                          || differs (height c0) ch
                       then resized_to (mask_width mask) ch c0 else c0)).
    { intros d.
      destruct (differs (width c0) (mask_width mask) || differs (height c0) ch);
        [right; reflexivity | left; reflexivity]. }
    assert (Hkeep : differs (width c0) (mask_width mask) || differs (height c0) ch
                    = false ->
                    differs (to_unsigned_long (mask_width mask)) (mask_width mask)
                    || differs (to_unsigned_long ch) ch = false).
    { intros Hd. apply orb_false_iff in Hd. destruct Hd as (Hd1 & Hd2).
      apply differs_false in Hd1, Hd2.
      rewrite (to_unsigned_long_whole _ _ Hd1), (to_unsigned_long_whole _ _ Hd2).
      now rewrite (differs_whole _ _ Hd1), (differs_whole _ _ Hd2). }
    set (c1 := if differs (width c0) (mask_width mask) || differs (height c0) ch
               then resized_to (mask_width mask) ch c0 else c0) in *.
    assert (Hpw : forall d c, width (putImageData d c) = width c) by reflexivity.
    assert (Hph : forall d c, height (putImageData d c) = height c) by reflexivity.
    assert (Hput : forall d d' c, putImageData d (putImageData d' c) = putImageData d c)
      by reflexivity.
    assert (Hstable : forall c2,
               width c2 = width c1 -> height c2 = height c1 ->
               (c2 = c1 \/ exists d, c2 = putImageData d c1) ->
               (if differs (width c2) (mask_width mask) || differs (height c2) ch
                then resized_to (mask_width mask) ch c2 else c2) = c2).
    { intros c2 E1 E2 Hc2. rewrite E1, E2, Ew, Eh.
      destruct (differs (width c0) (mask_width mask) || differs (height c0) ch) eqn:Hd.
      - destruct (differs (to_unsigned_long (mask_width mask)) (mask_width mask)
                  || differs (to_unsigned_long ch) ch); [|reflexivity].
        destruct Hc2 as [-> | (d & ->)]; subst c1; reflexivity.
      - now rewrite (Hkeep eq_refl). }
    destruct ((width c1 =? 0) || (height c1 =? 0)) eqn:Ez; cbn [fst].
    + rewrite (Hstable c1 eq_refl eq_refl (or_introl eq_refl)). now rewrite Ez.
    + rewrite (Hstable _ (Hpw _ _) (Hph _ _) (or_intror (ex_intro _ _ eq_refl))).
      rewrite !Hpw, !Hph, Ez, Hput. reflexivity.
  - intros mask color c -> -> -> Hw Hh Pw Ph.
    unfold _debug, minimap.
    rewrite (differs_whole _ _ Hw), (differs_whole _ _ Hh). cbn [orb].
    destruct (Nat.eqb_spec (width c) 0); [lia|].
    destruct (Nat.eqb_spec (height c) 0); [lia|].
    reflexivity.
Qed.

Lemma write_zero n : forall i, write (repeat 0%Z n) i 0%Z = repeat 0%Z n.
Proof.
  induction n as [|n IH]; intros [|i]; cbn; try reflexivity.
  now rewrite IH.
Qed.

Lemma compose_of_nothing w h : compose [] w h = repeat 0%Z (4 * w * h).
Proof.
  unfold compose, minimap, draw_full_map, draw_minimap.
  change ((List.length (@nil Z) + 3) / 4) with 0. cbn [seq map fold_left].
  set (zeros := repeat 0%Z (4 * w * h)).
  assert (Hnone : forall i, nth_error (@nil Z) i = None) by (now intros [|i]).
  assert (Hpixel : forall a x y, a = zeros -> minimap_pixel [] w a x y = zeros).
  { intros a x y ->. unfold minimap_pixel, store, zeros.
    now rewrite !Hnone, !write_zero. }
  assert (Hrow : forall a y,
             a = zeros ->
             fold_left (fun data x => minimap_pixel [] w data x y) (seq 0 w) a = zeros).
  { intros a y Ha.
    exact (fold_left_keeps (fun d => d = zeros)
             (fun data x => minimap_pixel [] w data x y) (seq 0 w)
             (fun a' x Ha' => Hpixel a' x y Ha') a Ha). }
  exact (fold_left_keeps (fun d => d = zeros)
           (fun data y =>
              fold_left (fun data x => minimap_pixel [] w data x y) (seq 0 w) data)
           (seq 0 h) Hrow zeros eq_refl).
Qed.

(** X9.  Whatever the sizes of the mask and whatever the read-back
    holds (too short, too long, numbers that are no bytes), an overlay
    drawn without exception is on a canvas of the mask's width and
    twice its height with the fractions dropped, and its image has
    exactly four entries per canvas pixel, each a byte; for an empty
    read-back every entry is 0. *)
Theorem X9_overlay_image_well_formed blank mask color document c :
  _debug blank (Some mask) (Some color) document = (Some c, None) ->
  width c = to_unsigned_long (mask_width mask)
  /\ height c = to_unsigned_long (2 * mask_height mask)
  /\ List.length (image c) = 4 * width c * height c
  /\ Forall is_byte (image c)
  /\ (color = [] -> image c = repeat 0%Z (4 * width c * height c)).
Proof.
  unfold _debug, minimap.
  set (c0 := match document with Some c => c | None => created blank end).
  destruct (sized_canvas (mask_width mask) (2 * mask_height mask) c0) as (Ew & Eh).
  set (c1 := if differs (width c0) (mask_width mask)
                || differs (height c0) (2 * mask_height mask)
             then resized_to (mask_width mask) (2 * mask_height mask) c0 else c0) in *.
  clearbody c1.
  destruct ((width c1 =? 0) || (height c1 =? 0)); [discriminate|].
  intros Hc. inversion Hc. subst c. cbn [width height image putImageData].
  split; [exact Ew | split; [exact Eh |]].
  split; [apply is_image_compose | split; [apply is_image_compose |]].
  intros ->. apply compose_of_nothing.
Qed.

End OverlayFacts.

(** ** The further properties on concrete frames *)

Lemma X1_frame_calls_witness :
  reachable after_first_frame
  /\ collideLayersOf two_layers_zoomed <> []
  /\ events_of (preRender canvas_800x600 two_layers_zoomed) after_first_frame
     = [FboResize 101 (inject_Z 800 / DOWNSCALE)%Q (inject_Z 600 / DOWNSCALE)%Q;
        PassRender 101
          {| rc_layers := [layerA; layerB];
             rc_layerFilter := tt;
             rc_viewports := [viewport_z11];
             rc_onViewportActive := tt;
             rc_views := tt;
             rc_ratio_gl := 0 |};
        DebugOverlay {| tex_ref := 102 |}].
Proof.
  assert (Hr : reachable after_first_frame)
    by (apply reachable_preRender, reachable_new).
  assert (Hne : collideLayersOf two_layers_zoomed <> [])
    by (vm_compute; discriminate).
  split; [exact Hr | split; [exact Hne |]].
  destruct (X1_frame_calls_in_order canvas_800x600 two_layers_zoomed
              after_first_frame Hr Hne) as (p & Hp & Ht).
  rewrite Ht. clear Ht.
  assert (Hpass : Some p
                  = Some {| pass_ref := 101; pass_gl := 0;
                            pass_collideMap := {| tex_ref := 102 |};
                            fbo_size := Some ((inject_Z 800 / DOWNSCALE)%Q,
                                              (inject_Z 600 / DOWNSCALE)%Q) |})
    by (rewrite <- Hp; reflexivity).
  inversion Hpass. reflexivity.
Defined.

Lemma X2_render_skipped_witness :
  reachable after_first_frame
  /\ option_map layerBounds (oldRenderInfo (this after_first_frame))
     = Some (map getBounds (collideLayersOf two_layers))
  /\ count_render (events_of (preRender canvas_800x600 two_layers) after_first_frame) = 0
  /\ (count_render (events_of (preRender canvas_800x600 two_layers_moved)
                              after_first_frame) = 0 -> False).
Proof.
  assert (Hr : reachable after_first_frame)
    by (apply reachable_preRender, reachable_new).
  split; [exact Hr | split; [reflexivity | split]].
  - apply (X2_render_skipped_iff canvas_800x600 two_layers after_first_frame
             (frame_renderInfo new_effect two_layers) Hr);
      [vm_compute; discriminate | reflexivity |].
    split; [reflexivity |].
    exists viewport_z10. split; reflexivity.
  - intros Hskip.
    apply (X2_render_skipped_iff canvas_800x600 two_layers_moved after_first_frame
             (frame_renderInfo new_effect two_layers) Hr) in Hskip;
      [| vm_compute; discriminate | reflexivity].
    destruct Hskip as (Hb & _). vm_compute in Hb. discriminate.
Defined.


Lemma X6_overlay_witness :
  exists c,
    Overlay._debug blank_canvas (Some mask_2x1) (Some color_2x1) None = (Some c, None)
    /\ Overlay.width c = 2
    /\ Overlay.height c = 2
    /\ skipn 8 (Overlay.image c) = color_2x1.
Proof.
  destruct (OverlayFacts.X6_overlay_shows_full_mask
              blank_canvas mask_2x1 color_2x1 None 2 1)
    as (c & Hc & Hw & Hh & _ & _ & Hbytes).
  - reflexivity.
  - reflexivity.
  - lia.
  - lia.
  - reflexivity.
  - exists c. split; [exact Hc | split; [exact Hw | split; [exact Hh |]]].
    apply Hbytes.
    repeat constructor; unfold Overlay.is_byte; lia.
Defined.

Lemma X7_overlay_minimap_witness :
  exists c,
    Overlay._debug blank_canvas (Some mask_2x1) (Some color_2x1) None = (Some c, None)
    /\ nth_error color_2x1 2 = Some 30%Z
    /\ nth_error (Overlay.image c) 6 = Some 30%Z.
Proof.
  destruct (OverlayFacts.X7_overlay_minimap_pixel
              blank_canvas mask_2x1 color_2x1 None 2 1 1 0 2)
    as (c & v & Hc & Hv & Hi).
  - reflexivity.
  - reflexivity.
  - reflexivity.
  - lia.
  - lia.
  - lia.
  - exists c. split; [exact Hc |].
    cbn in Hv. inversion Hv. subst v. split; [reflexivity | exact Hi].
Defined.

Lemma X8_overlay_witness :
  exists c,
    Overlay._debug blank_canvas (Some mask_2x1) (Some color_2x1) None = (Some c, None)
    /\ Overlay._debug blank_canvas (Some mask_2x1) (Some color_2x1) (Some c)
       = (Some c, None)
    /\ Overlay._debug blank_canvas (Some mask_2x1) (Some short_readback) (Some c)
       = (Some (Overlay.putImageData (Overlay.compose short_readback 2 2) c), None).
Proof.
  assert (H : exists c,
             Overlay._debug blank_canvas (Some mask_2x1) (Some color_2x1) None
             = (Some c, None))
    by (eexists; reflexivity).
  destruct H as (c & Hc). exists c. split; [exact Hc |].
  pose proof (proj1 (OverlayFacts.X8_overlay_idempotent
                       blank_canvas (Some mask_2x1) (Some color_2x1) None)) as Hidem.
  rewrite Hc in Hidem. split; [exact Hidem |].
  destruct (OverlayFacts.X9_overlay_image_well_formed
              blank_canvas mask_2x1 color_2x1 None c Hc) as (Hw & Hh & _).
  change (Overlay.to_unsigned_long (Overlay.mask_width mask_2x1)) with 2 in Hw.
  change (Overlay.to_unsigned_long (2 * Overlay.mask_height mask_2x1)) with 2 in Hh.
  pose proof (proj2 (OverlayFacts.X8_overlay_idempotent
                       blank_canvas (Some mask_2x1) (Some short_readback) (Some c))
                mask_2x1 short_readback c eq_refl eq_refl eq_refl) as Hkept.
  rewrite Hw, Hh in Hkept.
  apply Hkept; [reflexivity | reflexivity | lia | lia].
Defined.

Lemma X9_overlay_image_witness :
  (exists c,
      Overlay._debug blank_canvas (Some mask_2x1) (Some short_readback) None
      = (Some c, None)
      /\ List.length (Overlay.image c) = 16
      /\ Forall Overlay.is_byte (Overlay.image c))
  /\ (exists c,
         Overlay._debug blank_canvas (Some mask_of_odd_canvas)
           (Some color_of_odd_canvas) None = (Some c, None)
         /\ Overlay.width c = 2
         /\ Overlay.height c = 3
         /\ List.length (Overlay.image c) = 24).
Proof.
  split.
  - assert (H : exists c,
               Overlay._debug blank_canvas (Some mask_2x1) (Some short_readback) None
               = (Some c, None))
      by (eexists; reflexivity).
    destruct H as (c & Hc). exists c. split; [exact Hc |].
    destruct (OverlayFacts.X9_overlay_image_well_formed
                blank_canvas mask_2x1 short_readback None c Hc)
      as (Hw & Hh & Hlen & Hbytes & _).
    split; [| exact Hbytes].
    rewrite Hlen, Hw, Hh. reflexivity.
  - assert (H : exists c,
               Overlay._debug blank_canvas (Some mask_of_odd_canvas)
                 (Some color_of_odd_canvas) None = (Some c, None))
      by (eexists; reflexivity).
    destruct H as (c & Hc). exists c. split; [exact Hc |].
    destruct (OverlayFacts.X9_overlay_image_well_formed
                blank_canvas mask_of_odd_canvas color_of_odd_canvas None c Hc)
      as (Hw & Hh & Hlen & _).
    split; [exact Hw | split; [exact Hh |]].
    rewrite Hlen, Hw, Hh. reflexivity.
Defined.

Lemma X10_no_viewport_witness :
  collideLayersOf (options [layerA; layerB] []) <> []
  /\ lastViewport (this (state_after (preRender canvas_800x600
                                        (options [layerA; layerB] []))
                                     after_first_frame)) = None
  /\ count_render (events_of (preRender canvas_800x600 two_layers)
                     (state_after (preRender canvas_800x600
                                     (options [layerA; layerB] []))
                                  after_first_frame)) = 1.
Proof.
  assert (Hne : collideLayersOf (options [layerA; layerB] []) <> [])
    by (vm_compute; discriminate).
  destruct (X10_no_viewport_always_renders canvas_800x600
              (options [layerA; layerB] []) after_first_frame
              Hne eq_refl (fun lv => eq_refl))
    as (_ & Hlv & Hnext).
  split; [exact Hne | split; [exact Hlv |]].
  apply Hnext. vm_compute; discriminate.
Defined.

Lemma X11_invariants_witness :
  reachable after_empty_frame
  /\ isSome (oldRenderInfo (this after_empty_frame))
     = haveCollideLayers (this after_empty_frame)
  /\ collideMap (this after_empty_frame)
     = option_map pass_collideMap (collidePass (this after_empty_frame)).
Proof.
  assert (Hr : reachable after_empty_frame)
    by (apply reachable_preRender, reachable_preRender, reachable_new).
  destruct (X11_reachable_state_invariants after_empty_frame Hr) as (Hold & _ & Hmap).
  split; [exact Hr | split; [exact Hold | exact Hmap]].
Defined.
